(** * Cantera kinetics manager and zero-dimensional reactor glue

    A shallow embedding of
    - [include/cantera/kinetics/Kinetics.h] (class [Kinetics]),
    - [src/zeroD/ReactorBase.cpp] (class [ReactorBase]),
    - [src/zeroD/ConnectorFactory.cpp] (the connector factory functions,
      over the class [Connector] of [include/cantera/zeroD/Connector.h]),
    - [src/numerics/Func1Factory.cpp] (the functor factories),
    together with the properties stated about them.

    Conventions.
    - [size_t] is a 64-bit unsigned integer: a [Z] reduced by [wrap].
    - [double] is IEEE-754 binary64: Rocq's primitive [float].
    - A C++ call either returns, throws, or has undefined behaviour
      (an unchecked [operator[]] out of range, a null dereference):
      the type [outcome].
    - [std::map] is a [gmap], [std::vector] a [list]. *)

From Stdlib Require Import ZArith List String Ascii Bool Floats Lia.
From stdpp Require Import gmap strings list fin_maps.

Local Open Scope Z_scope.
Local Open Scope string_scope.

(** ** Machine integers *)

Definition size_t_modulus : Z := 2 ^ 64.

Definition wrap (z : Z) : Z := z mod size_t_modulus.

(** [npos] is [static_cast<size_t>(-1)]. *)
Definition npos : Z := wrap (-1).

Abbreviation double := float.

(** ** Exceptions and outcomes *)

Inductive exn : Type :=
| NotImplementedError (func : string) (msg : string)
| IndexError (func : string) (arrayName : string) (m : Z) (mmax : Z)
| ArraySizeError (func : string) (sz : Z) (reqd : Z)
| CanteraError (func : string) (msg : string)
| std_out_of_range.

Inductive outcome (A : Type) : Type :=
| Returns (a : A)
| Throws (e : exn)
| Undefined.

Arguments Returns {A} a.
Arguments Throws {A} e.
Arguments Undefined {A}.

#[global] Instance outcome_ret : MRet outcome := fun A a => Returns a.

#[global] Instance outcome_bind : MBind outcome := fun A B k m =>
  match m with
  | Returns a => k a
  | Throws e => Throws e
  | Undefined => Undefined
  end.

Definition returns {A : Type} (o : outcome A) : bool :=
  match o with Returns _ => true | _ => false end.

Definition throws {A : Type} (o : outcome A) : bool :=
  match o with Throws _ => true | _ => false end.

(** ** Strings: substring test and [fmt]-style formatting *)

Fixpoint is_prefix (p s : string) : bool :=
  match p, s with
  | EmptyString, _ => true
  | String a p', String b s' => Ascii.eqb a b && is_prefix p' s'
  | String _ _, EmptyString => false
  end.

(** [is_infix p s]: [s.find(p) != npos]. *)
Fixpoint is_infix (p s : string) : bool :=
  is_prefix p s ||
  match s with
  | EmptyString => false
  | String _ s' => is_infix p s'
  end.

(** [format1 tmpl arg] is [fmt::format(tmpl, arg)] for a template with
    replacement fields spelled [{}]: the first field is replaced by [arg]. *)
Fixpoint format1 (tmpl arg : string) : string :=
  match tmpl with
  | String "{" (String "}" rest) => arg ++ rest
  | String c rest => String c (format1 rest arg)
  | EmptyString => EmptyString
  end.

(** ** What an error says *)

(** The function an error names, and its message. *)
Definition exn_func (e : exn) : string :=
  match e with
  | NotImplementedError f _ | IndexError f _ _ _ | ArraySizeError f _ _
  | CanteraError f _ => f
  | std_out_of_range => ""
  end.

Definition exn_message (e : exn) : string :=
  match e with
  | NotImplementedError _ m | CanteraError _ m => m
  | _ => ""
  end.

Definition is_not_implemented (e : exn) : bool :=
  match e with NotImplementedError _ _ => true | _ => false end.

Definition is_index_error (e : exn) : bool :=
  match e with IndexError _ _ _ _ => true | _ => false end.

(** The error names the text [s], in its function name or its message. *)
Definition mentions (s : string) (e : exn) : bool :=
  is_infix s (exn_func e) || is_infix s (exn_message e).

(** ** Unchecked and checked container access *)

(** [v[i]] on a [std::vector]: no bounds check, undefined out of range. *)
Definition vec_index {A : Type} (v : list A) (i : Z) : outcome A :=
  if decide (0 <= i) then
    match v !! Z.to_nat i with
    | Some a => Returns a
    | None => Undefined
    end
  else Undefined.

(** [m.at(k)] on a [std::map]: throws [std::out_of_range] on a missing key. *)
Definition map_at `{Countable K} {V : Type} (m : gmap K V) (k : K) : outcome V :=
  match m !! k with
  | Some v => Returns v
  | None => Throws std_out_of_range
  end.

Definition vec_size {A : Type} (v : list A) : Z := Z.of_nat (length v).

(** * Class [Kinetics] (Kinetics.h) *)

Module Kinetics.

(** ** Collaborators *)

(** Modelled from the spec: class [ThermoPhase] is declared outside the
    sources; the kinetics manager consumes from it, per phase, the
    species count and the phase name. *)
Record ThermoPhase : Type := {
  phase_name : string;
  nSpecies : Z
}.

(** Modelled from the spec: class [Reaction] is declared outside the
    sources; the data model gives it a map from species id to
    coefficient for the reactants, another for the products, and a
    reversibility flag. *)
Record Reaction : Type := {
  reactants : gmap Z double;
  products : gmap Z double;
  reversible : bool
}.

(** An [Eigen::SparseMatrix<double>]: its shape and its stored entries,
    keyed by (row, column) = (species, reaction). *)
Record SparseMatrix : Type := {
  rows : Z;
  cols : Z;
  entries : gmap (Z * Z) double
}.

(** [M.coeff(k, i)]: the stored entry, zero where nothing is stored. *)
Definition coeff (M : SparseMatrix) (k i : Z) : double :=
  default 0%float (entries M !! (k, i)).

Definition empty_matrix : SparseMatrix :=
  {| rows := 0; cols := 0; entries := ∅ |}.

(** One (row, column, value) triplet. *)
Definition triplet : Type := Z * Z * double.

Definition position (t : triplet) : Z * Z := (t.1.1, t.1.2).

(** [setFromTriplets]: the first value at a position is stored, further
    values at the same position are summed onto it. *)
Definition add_triplet (E : gmap (Z * Z) double) (t : triplet) : gmap (Z * Z) double :=
  match E !! position t with
  | Some x => <[position t := (x + t.2)%float]> E
  | None => <[position t := t.2]> E
  end.

Definition setFromTriplets (ts : list triplet) : gmap (Z * Z) double :=
  fold_left add_triplet ts ∅.

(** Entry-wise difference [A - B] of two sparse matrices: an entry is
    stored wherever either operand stores one. *)
Definition sub_entry (a b : option double) : option double :=
  match a, b with
  | None, None => None
  | _, _ => Some (default 0 a - default 0 b)%float
  end.

Definition sparse_sub (A B : SparseMatrix) : SparseMatrix :=
  {| rows := rows A; cols := cols A;
     entries := merge sub_entry (entries A) (entries B) |}.

(** Modelled from the spec: class [StoichManagerN] (StoichManager.h) is
    not among the sources.  The spec has the entries of a stoichiometry
    matrix set once when a reaction is added and the matrix re-derived
    whenever the reactions are resized: the manager keeps the list of
    entries and the matrix built from it. *)
Record StoichManagerN : Type := {
  m_coeffList : list triplet;
  m_stoichCoeffs : SparseMatrix
}.

Definition empty_stoich : StoichManagerN :=
  {| m_coeffList := []; m_stoichCoeffs := empty_matrix |}.

(** The entries of column [rxn] for a coefficient map of a reaction. *)
Definition column_triplets (rxn : Z) (side : gmap Z double) : list triplet :=
  (λ kv : Z * double, (kv.1, rxn, kv.2)) <$> map_to_list side.

(** Modelled from the spec: [StoichManagerN::add], the entries of
    reaction [rxn] taken from a coefficient map of the reaction. *)
Definition stoich_add (rxn : Z) (side : gmap Z double) (sm : StoichManagerN)
  : StoichManagerN :=
  {| m_coeffList := (m_coeffList sm ++ column_triplets rxn side)%list;
     m_stoichCoeffs := m_stoichCoeffs sm |}.

(** Modelled from the spec: [StoichManagerN::resizeCoeffs], the matrix
    re-derived from the stored entries at the new shape. *)
Definition resizeCoeffs (nSpc nRxn : Z) (sm : StoichManagerN) : StoichManagerN :=
  {| m_coeffList := m_coeffList sm;
     m_stoichCoeffs :=
       {| rows := nSpc; cols := nRxn;
          entries := setFromTriplets (m_coeffList sm) |} |}.

(** [StoichManagerN::stoichCoeffs]. *)
Definition stoichCoeffs (sm : StoichManagerN) : SparseMatrix := m_stoichCoeffs sm.

(** Modelled from the spec: class [ValueCache] (ValueCache.h) is not
    among the sources; the spec describes a mapping from an opaque
    computation key to a previously computed result. *)
Definition CachedValue : Type := list double.

(** ** The state of a kinetics manager: the data members of the class *)

Record Kinetics : Type := {
  m_cache : gmap Z CachedValue;
  m_reactantStoich : StoichManagerN;
  m_productStoich : StoichManagerN;
  m_revProductStoich : StoichManagerN;
  m_stoichMatrix : SparseMatrix;
  m_ready : bool;
  m_kk : Z;
  m_perturb : list double;
  m_reactions : list Reaction;
  m_thermo : list ThermoPhase;
  m_start : list Z;
  m_phaseindex : gmap string Z;
  m_revindex : list Z;
  m_irrev : list Z;
  m_skipUndeclaredSpecies : bool
}.

(** [Kinetics() = default], with the member initialisers of the class. *)
Definition Kinetics_default : Kinetics :=
  {| m_cache := ∅;
     m_reactantStoich := empty_stoich;
     m_productStoich := empty_stoich;
     m_revProductStoich := empty_stoich;
     m_stoichMatrix := empty_matrix;
     m_ready := false;
     m_kk := 0;
     m_perturb := [];
     m_reactions := [];
     m_thermo := [];
     m_start := [];
     m_phaseindex := ∅;
     m_revindex := [];
     m_irrev := [];
     m_skipUndeclaredSpecies := false |}.

(** ** Inline members of the class *)

(** [kineticsType()] of the base class. *)
Definition kineticsType : string := "none".

Definition nReactions (K : Kinetics) : Z := vec_size (m_reactions K).

Definition nPhases (K : Kinetics) : Z := vec_size (m_thermo K).

Definition nTotalSpecies (K : Kinetics) : Z := m_kk K.

(** [phaseIndex(ph)]:
    [if (m_phaseindex.find(ph) == m_phaseindex.end()) return npos;
     else return m_phaseindex.at(ph) - 1;] *)
Definition phaseIndex (K : Kinetics) (ph : string) : outcome Z :=
  match m_phaseindex K !! ph with
  | None => Returns npos
  | Some _ => v ← map_at (m_phaseindex K) ph; Returns (wrap (v - 1))
  end.

(** [phase(n)]: [return m_thermo[n];] *)
Definition phase (K : Kinetics) (n : Z) : outcome ThermoPhase :=
  vec_index (m_thermo K) n.

(** [kineticsSpeciesIndex(k, n)]: [return m_start[n] + k;] *)
Definition kineticsSpeciesIndex (K : Kinetics) (k n : Z) : outcome Z :=
  s ← vec_index (m_start K) n; Returns (wrap (s + k)).

(** [reactantStoichCoeffs()], [productStoichCoeffs()],
    [revProductStoichCoeffs()]. *)
Definition reactantStoichCoeffs (K : Kinetics) : SparseMatrix :=
  stoichCoeffs (m_reactantStoich K).

Definition productStoichCoeffs (K : Kinetics) : SparseMatrix :=
  stoichCoeffs (m_productStoich K).

Definition revProductStoichCoeffs (K : Kinetics) : SparseMatrix :=
  stoichCoeffs (m_revProductStoich K).

(** [isReversible(i)]:
    [std::find(m_revindex.begin(), m_revindex.end(), i) < m_revindex.end()]. *)
Definition isReversible (K : Kinetics) (i : Z) : outcome bool :=
  Returns (bool_decide (i ∈ m_revindex K)).

(** [multiplier(i)]: [return m_perturb[i];] *)
Definition multiplier (K : Kinetics) (i : Z) : outcome double :=
  vec_index (m_perturb K) i.

Definition set_m_perturb (p : list double) (K : Kinetics) : Kinetics :=
  {| m_cache := m_cache K;
     m_reactantStoich := m_reactantStoich K;
     m_productStoich := m_productStoich K;
     m_revProductStoich := m_revProductStoich K;
     m_stoichMatrix := m_stoichMatrix K;
     m_ready := m_ready K;
     m_kk := m_kk K;
     m_perturb := p;
     m_reactions := m_reactions K;
     m_thermo := m_thermo K;
     m_start := m_start K;
     m_phaseindex := m_phaseindex K;
     m_revindex := m_revindex K;
     m_irrev := m_irrev K;
     m_skipUndeclaredSpecies := m_skipUndeclaredSpecies K |}.

Definition set_m_cache (c : gmap Z CachedValue) (K : Kinetics) : Kinetics :=
  {| m_cache := c;
     m_reactantStoich := m_reactantStoich K;
     m_productStoich := m_productStoich K;
     m_revProductStoich := m_revProductStoich K;
     m_stoichMatrix := m_stoichMatrix K;
     m_ready := m_ready K;
     m_kk := m_kk K;
     m_perturb := m_perturb K;
     m_reactions := m_reactions K;
     m_thermo := m_thermo K;
     m_start := m_start K;
     m_phaseindex := m_phaseindex K;
     m_revindex := m_revindex K;
     m_irrev := m_irrev K;
     m_skipUndeclaredSpecies := m_skipUndeclaredSpecies K |}.

(** [setMultiplier(i, f)]: [m_perturb[i] = f;] *)
Definition setMultiplier (K : Kinetics) (i : Z) (f : double) : outcome Kinetics :=
  _ ← vec_index (m_perturb K) i;
  Returns (set_m_perturb (<[Z.to_nat i := f]> (m_perturb K)) K).

(** [invalidateCache()]: [m_cache.clear();] *)
Definition invalidateCache (K : Kinetics) : Kinetics := set_m_cache ∅ K.

(** ** Virtual members whose base-class body only throws *)

Inductive VirtualOp : Type :=
| op_getEquilibriumConstants | op_getDeltaGibbs
| op_getDeltaElectrochemPotentials | op_getDeltaEnthalpy
| op_getDeltaEntropy | op_getDeltaSSGibbs | op_getDeltaSSEnthalpy
| op_getDeltaSSEntropy
| op_getThirdBodyConcentrations | op_thirdBodyConcentrations
| op_getDerivativeSettings | op_setDerivativeSettings
| op_getFwdRateConstants_ddT | op_getFwdRateConstants_ddP
| op_getFwdRateConstants_ddC
| op_getFwdRatesOfProgress_ddT | op_getFwdRatesOfProgress_ddP
| op_getFwdRatesOfProgress_ddC
| op_fwdRatesOfProgress_ddX | op_fwdRatesOfProgress_ddCi
| op_getRevRatesOfProgress_ddT | op_getRevRatesOfProgress_ddP
| op_getRevRatesOfProgress_ddC
| op_revRatesOfProgress_ddX | op_revRatesOfProgress_ddCi
| op_getNetRatesOfProgress_ddT | op_getNetRatesOfProgress_ddP
| op_getNetRatesOfProgress_ddC
| op_netRatesOfProgress_ddX | op_netRatesOfProgress_ddCi
| op_reactantOrder | op_productOrder | op_getActivityConcentrations
| op_getFwdRateConstants | op_getRevRateConstants | op_updateROP.

Definition all_virtual_ops : list VirtualOp :=
  [ op_getEquilibriumConstants; op_getDeltaGibbs;
    op_getDeltaElectrochemPotentials; op_getDeltaEnthalpy;
    op_getDeltaEntropy; op_getDeltaSSGibbs; op_getDeltaSSEnthalpy;
    op_getDeltaSSEntropy;
    op_getThirdBodyConcentrations; op_thirdBodyConcentrations;
    op_getDerivativeSettings; op_setDerivativeSettings;
    op_getFwdRateConstants_ddT; op_getFwdRateConstants_ddP;
    op_getFwdRateConstants_ddC;
    op_getFwdRatesOfProgress_ddT; op_getFwdRatesOfProgress_ddP;
    op_getFwdRatesOfProgress_ddC;
    op_fwdRatesOfProgress_ddX; op_fwdRatesOfProgress_ddCi;
    op_getRevRatesOfProgress_ddT; op_getRevRatesOfProgress_ddP;
    op_getRevRatesOfProgress_ddC;
    op_revRatesOfProgress_ddX; op_revRatesOfProgress_ddCi;
    op_getNetRatesOfProgress_ddT; op_getNetRatesOfProgress_ddP;
    op_getNetRatesOfProgress_ddC;
    op_netRatesOfProgress_ddX; op_netRatesOfProgress_ddCi;
    op_reactantOrder; op_productOrder; op_getActivityConcentrations;
    op_getFwdRateConstants; op_getRevRateConstants; op_updateROP ].

(** Modelled from the spec: class [NotImplementedError] (ctexceptions.h)
    is not among the sources.  Its one-argument form is given the name
    of the function only; the message it then carries is a fixed text of
    the not-implemented condition, the same for every manager. *)
Definition not_implemented_text : string := "Not implemented.".

Definition NotImplementedError1 (func : string) : exn :=
  NotImplementedError func not_implemented_text.

(** The three-argument form: a format string and its argument. *)
Definition NotImplementedError3 (func tmpl arg : string) : exn :=
  NotImplementedError func (format1 tmpl arg).

Definition not_applicable_tmpl : string :=
  "Not applicable/implemented for Kinetics object of type '{}'".

Definition not_implemented_tmpl : string :=
  "Not implemented for kinetics type '{}'.".

(** The base-class body of each of these members, called on a manager
    whose [kineticsType()] (a virtual call) yields [ty]. *)
Definition base_body (ty : string) (op : VirtualOp) : exn :=
  match op with
  | op_getEquilibriumConstants =>
      NotImplementedError1 "Kinetics::getEquilibriumConstants"
  | op_getDeltaGibbs => NotImplementedError1 "Kinetics::getDeltaGibbs"
  | op_getDeltaElectrochemPotentials =>
      NotImplementedError1 "Kinetics::getDeltaElectrochemPotentials"
  | op_getDeltaEnthalpy => NotImplementedError1 "Kinetics::getDeltaEnthalpy"
  | op_getDeltaEntropy => NotImplementedError1 "Kinetics::getDeltaEntropy"
  | op_getDeltaSSGibbs => NotImplementedError1 "Kinetics::getDeltaSSGibbs"
  | op_getDeltaSSEnthalpy => NotImplementedError1 "Kinetics::getDeltaSSEnthalpy"
  | op_getDeltaSSEntropy => NotImplementedError1 "Kinetics::getDeltaSSEntropy"
  | op_getThirdBodyConcentrations =>
      NotImplementedError3 "Kinetics::getThirdBodyConcentrations"
        not_applicable_tmpl ty
  | op_thirdBodyConcentrations =>
      NotImplementedError3 "Kinetics::thirdBodyConcentrations"
        not_applicable_tmpl ty
  | op_getDerivativeSettings =>
      NotImplementedError3 "Kinetics::getDerivativeSettings" not_implemented_tmpl ty
  | op_setDerivativeSettings =>
      NotImplementedError3 "Kinetics::setDerivativeSettings" not_implemented_tmpl ty
  | op_getFwdRateConstants_ddT =>
      NotImplementedError3 "Kinetics::getFwdRateConstants_ddT" not_implemented_tmpl ty
  | op_getFwdRateConstants_ddP =>
      NotImplementedError3 "Kinetics::getFwdRateConstants_ddP" not_implemented_tmpl ty
  | op_getFwdRateConstants_ddC =>
      NotImplementedError3 "Kinetics::getFwdRateConstants_ddC" not_implemented_tmpl ty
  | op_getFwdRatesOfProgress_ddT =>
      NotImplementedError3 "Kinetics::getFwdRatesOfProgress_ddT" not_implemented_tmpl ty
  | op_getFwdRatesOfProgress_ddP =>
      NotImplementedError3 "Kinetics::getFwdRatesOfProgress_ddP" not_implemented_tmpl ty
  | op_getFwdRatesOfProgress_ddC =>
      NotImplementedError3 "Kinetics::getFwdRatesOfProgress_ddC" not_implemented_tmpl ty
  | op_fwdRatesOfProgress_ddX =>
      NotImplementedError3 "Kinetics::fwdRatesOfProgress_ddX" not_implemented_tmpl ty
  | op_fwdRatesOfProgress_ddCi =>
      NotImplementedError3 "Kinetics::fwdRatesOfProgress_ddCi" not_implemented_tmpl ty
  | op_getRevRatesOfProgress_ddT =>
      NotImplementedError3 "Kinetics::getRevRatesOfProgress_ddT" not_implemented_tmpl ty
  | op_getRevRatesOfProgress_ddP =>
      NotImplementedError3 "Kinetics::getRevRatesOfProgress_ddP" not_implemented_tmpl ty
  | op_getRevRatesOfProgress_ddC =>
      NotImplementedError3 "Kinetics::getRevRatesOfProgress_ddC" not_implemented_tmpl ty
  | op_revRatesOfProgress_ddX =>
      NotImplementedError3 "Kinetics::revRatesOfProgress_ddX" not_implemented_tmpl ty
  | op_revRatesOfProgress_ddCi =>
      NotImplementedError3 "Kinetics::revRatesOfProgress_ddCi" not_implemented_tmpl ty
  | op_getNetRatesOfProgress_ddT =>
      NotImplementedError3 "Kinetics::getNetRatesOfProgress_ddT" not_implemented_tmpl ty
  | op_getNetRatesOfProgress_ddP =>
      NotImplementedError3 "Kinetics::getNetRatesOfProgress_ddP" not_implemented_tmpl ty
  | op_getNetRatesOfProgress_ddC =>
      NotImplementedError3 "Kinetics::getNetRatesOfProgress_ddC" not_implemented_tmpl ty
  | op_netRatesOfProgress_ddX =>
      NotImplementedError3 "Kinetics::netRatesOfProgress_ddX" not_implemented_tmpl ty
  | op_netRatesOfProgress_ddCi =>
      NotImplementedError3 "Kinetics::netRatesOfProgress_ddCi" not_implemented_tmpl ty
  | op_reactantOrder => NotImplementedError1 "Kinetics::reactantOrder"
  | op_productOrder => NotImplementedError1 "Kinetics::productOrder"
  | op_getActivityConcentrations =>
      NotImplementedError1 "Kinetics::getActivityConcentrations"
  | op_getFwdRateConstants => NotImplementedError1 "Kinetics::getFwdRateConstants"
  | op_getRevRateConstants => NotImplementedError1 "Kinetics::getRevRateConstants"
  | op_updateROP => NotImplementedError1 "Kinetics::updateROP"
  end.

(** Calling a member the concrete manager (of type name [ty]) does not
    override runs the base-class body. *)
Definition call_unsupported (ty : string) (op : VirtualOp) : outcome unit :=
  Throws (base_body ty op).

(** The members whose base-class body passes [kineticsType()] on. *)
Definition passes_type (op : VirtualOp) : bool :=
  match op with
  | op_getEquilibriumConstants | op_getDeltaGibbs
  | op_getDeltaElectrochemPotentials | op_getDeltaEnthalpy
  | op_getDeltaEntropy | op_getDeltaSSGibbs | op_getDeltaSSEnthalpy
  | op_getDeltaSSEntropy
  | op_reactantOrder | op_productOrder | op_getActivityConcentrations
  | op_getFwdRateConstants | op_getRevRateConstants | op_updateROP => false
  | _ => true
  end.

(** The name under which the class declares each of these members. *)
Definition member_name (op : VirtualOp) : string :=
  match op with
  | op_getEquilibriumConstants => "getEquilibriumConstants"
  | op_getDeltaGibbs => "getDeltaGibbs"
  | op_getDeltaElectrochemPotentials => "getDeltaElectrochemPotentials"
  | op_getDeltaEnthalpy => "getDeltaEnthalpy"
  | op_getDeltaEntropy => "getDeltaEntropy"
  | op_getDeltaSSGibbs => "getDeltaSSGibbs"
  | op_getDeltaSSEnthalpy => "getDeltaSSEnthalpy"
  | op_getDeltaSSEntropy => "getDeltaSSEntropy"
  | op_getThirdBodyConcentrations => "getThirdBodyConcentrations"
  | op_thirdBodyConcentrations => "thirdBodyConcentrations"
  | op_getDerivativeSettings => "getDerivativeSettings"
  | op_setDerivativeSettings => "setDerivativeSettings"
  | op_getFwdRateConstants_ddT => "getFwdRateConstants_ddT"
  | op_getFwdRateConstants_ddP => "getFwdRateConstants_ddP"
  | op_getFwdRateConstants_ddC => "getFwdRateConstants_ddC"
  | op_getFwdRatesOfProgress_ddT => "getFwdRatesOfProgress_ddT"
  | op_getFwdRatesOfProgress_ddP => "getFwdRatesOfProgress_ddP"
  | op_getFwdRatesOfProgress_ddC => "getFwdRatesOfProgress_ddC"
  | op_fwdRatesOfProgress_ddX => "fwdRatesOfProgress_ddX"
  | op_fwdRatesOfProgress_ddCi => "fwdRatesOfProgress_ddCi"
  | op_getRevRatesOfProgress_ddT => "getRevRatesOfProgress_ddT"
  | op_getRevRatesOfProgress_ddP => "getRevRatesOfProgress_ddP"
  | op_getRevRatesOfProgress_ddC => "getRevRatesOfProgress_ddC"
  | op_revRatesOfProgress_ddX => "revRatesOfProgress_ddX"
  | op_revRatesOfProgress_ddCi => "revRatesOfProgress_ddCi"
  | op_getNetRatesOfProgress_ddT => "getNetRatesOfProgress_ddT"
  | op_getNetRatesOfProgress_ddP => "getNetRatesOfProgress_ddP"
  | op_getNetRatesOfProgress_ddC => "getNetRatesOfProgress_ddC"
  | op_netRatesOfProgress_ddX => "netRatesOfProgress_ddX"
  | op_netRatesOfProgress_ddCi => "netRatesOfProgress_ddCi"
  | op_reactantOrder => "reactantOrder"
  | op_productOrder => "productOrder"
  | op_getActivityConcentrations => "getActivityConcentrations"
  | op_getFwdRateConstants => "getFwdRateConstants"
  | op_getRevRateConstants => "getRevRateConstants"
  | op_updateROP => "updateROP"
  end.

(** The two third-body members, whose message is the
    not-applicable/implemented one. *)
Definition third_body_member (op : VirtualOp) : bool :=
  match op with
  | op_getThirdBodyConcentrations | op_thirdBodyConcentrations => true
  | _ => false
  end.

(** ** Members whose bodies are in Kinetics.cpp *)

(** Modelled from the spec: [checkReactionIndex], [checkSpeciesIndex]
    and [checkPhaseIndex] are declared in the class and defined in
    Kinetics.cpp, which is not among the sources.  The spec has an index
    outside the valid bounds, one past the valid count included, raise
    the index-out-of-range condition immediately. *)
Definition checkReactionIndex (K : Kinetics) (m : Z) : outcome unit :=
  if decide (nReactions K <= m)
  then Throws (IndexError "Kinetics::checkReactionIndex" "reactions" m (nReactions K))
  else Returns tt.

Definition checkSpeciesIndex (K : Kinetics) (k : Z) : outcome unit :=
  if decide (nTotalSpecies K <= k)
  then Throws (IndexError "Kinetics::checkSpeciesIndex" "species" k (nTotalSpecies K))
  else Returns tt.

Definition checkPhaseIndex (K : Kinetics) (m : Z) : outcome unit :=
  if decide (nPhases K <= m)
  then Throws (IndexError "Kinetics::checkPhaseIndex" "phase" m (nPhases K))
  else Returns tt.

(** Modelled from the spec: the array-size checks, also defined in
    Kinetics.cpp.  The class documents each as throwing when the size
    given is less than the count; the spec calls it a checked-size
    operation that fails fast. *)
Definition checkReactionArraySize (K : Kinetics) (ii : Z) : outcome unit :=
  if decide (ii < nReactions K)
  then Throws (ArraySizeError "Kinetics::checkReactionArraySize" ii (nReactions K))
  else Returns tt.

Definition checkSpeciesArraySize (K : Kinetics) (mm : Z) : outcome unit :=
  if decide (mm < nTotalSpecies K)
  then Throws (ArraySizeError "Kinetics::checkSpeciesArraySize" mm (nTotalSpecies K))
  else Returns tt.

Definition checkPhaseArraySize (K : Kinetics) (mm : Z) : outcome unit :=
  if decide (mm < nPhases K)
  then Throws (ArraySizeError "Kinetics::checkPhaseArraySize" mm (nPhases K))
  else Returns tt.

(** Modelled from the spec: [addThermo] is defined in Kinetics.cpp, which
    is not among the sources.  The spec has it append the phase, extend
    [start[]] by the cumulative offset before the new phase and update
    [kk]; the class documents the phase-name map as holding positions
    that start with the value 1. *)
Definition addThermo (K : Kinetics) (thermo : ThermoPhase) : Kinetics :=
  {| m_cache := m_cache K;
     m_reactantStoich := m_reactantStoich K;
     m_productStoich := m_productStoich K;
     m_revProductStoich := m_revProductStoich K;
     m_stoichMatrix := m_stoichMatrix K;
     m_ready := m_ready K;
     m_kk := wrap (m_kk K + nSpecies thermo);
     m_perturb := m_perturb K;
     m_reactions := m_reactions K;
     m_thermo := (m_thermo K ++ [thermo])%list;
     m_start := (m_start K ++ [m_kk K])%list;
     m_phaseindex := <[phase_name thermo := wrap (nPhases K + 1)]> (m_phaseindex K);
     m_revindex := m_revindex K;
     m_irrev := m_irrev K;
     m_skipUndeclaredSpecies := m_skipUndeclaredSpecies K |}.

(** Modelled from the spec: [resizeReactions] is defined in Kinetics.cpp.
    The spec has the stoichiometry matrices re-derived whenever the
    reactions are resized, the net matrix being product minus reactant. *)
Definition resizeReactions (K : Kinetics) : Kinetics :=
  let nRxn := nReactions K in
  let R := resizeCoeffs (m_kk K) nRxn (m_reactantStoich K) in
  let P := resizeCoeffs (m_kk K) nRxn (m_productStoich K) in
  let RP := resizeCoeffs (m_kk K) nRxn (m_revProductStoich K) in
  {| m_cache := m_cache K;
     m_reactantStoich := R;
     m_productStoich := P;
     m_revProductStoich := RP;
     m_stoichMatrix := sparse_sub (stoichCoeffs P) (stoichCoeffs R);
     m_ready := true;
     m_kk := m_kk K;
     m_perturb := m_perturb K;
     m_reactions := m_reactions K;
     m_thermo := m_thermo K;
     m_start := m_start K;
     m_phaseindex := m_phaseindex K;
     m_revindex := m_revindex K;
     m_irrev := m_irrev K;
     m_skipUndeclaredSpecies := m_skipUndeclaredSpecies K |}.

(** Every species a coefficient map refers to is a kinetics species
    index of the manager. *)
Definition declared (K : Kinetics) (side : gmap Z double) : bool :=
  forallb (λ kv : Z * double, bool_decide (0 <= kv.1 < m_kk K)) (map_to_list side).

(** Modelled from the spec: [addReaction] is defined in Kinetics.cpp.
    The spec has it validate that every species referenced is
    registered (the reaction being skipped under the
    skip-undeclared-species policy and the condition raised otherwise),
    insert the reaction into the stoichiometry managers, mark it
    reversible or irreversible, extend the multiplier vector,
    invalidate the cache, optionally trigger a resize pass, and return
    whether the reaction was added. *)
Definition addReaction (K : Kinetics) (r : Reaction) (resize : bool)
  : outcome (bool * Kinetics) :=
  if declared K (reactants r) && declared K (products r) then
    let irxn := nReactions K in
    let K1 :=
      {| m_cache := ∅;
         m_reactantStoich := stoich_add irxn (reactants r) (m_reactantStoich K);
         m_productStoich := stoich_add irxn (products r) (m_productStoich K);
         m_revProductStoich :=
           if reversible r
           then stoich_add irxn (products r) (m_revProductStoich K)
           else m_revProductStoich K;
         m_stoichMatrix := m_stoichMatrix K;
         m_ready := false;
         m_kk := m_kk K;
         m_perturb := (m_perturb K ++ [1%float])%list;
         m_reactions := (m_reactions K ++ [r])%list;
         m_thermo := m_thermo K;
         m_start := m_start K;
         m_phaseindex := m_phaseindex K;
         m_revindex :=
           if reversible r then (m_revindex K ++ [irxn])%list else m_revindex K;
         m_irrev :=
           if reversible r then m_irrev K else (m_irrev K ++ [irxn])%list;
         m_skipUndeclaredSpecies := m_skipUndeclaredSpecies K |} in
    Returns (true, if resize then resizeReactions K1 else K1)
  else if m_skipUndeclaredSpecies K then Returns (false, K)
  else Throws (CanteraError "Kinetics::addReaction" "undeclared species").

(** A construction step of a mechanism, and a run of such steps.  A step
    that throws leaves the manager as it was. *)
Inductive build_op : Type :=
| AddThermo (thermo : ThermoPhase)
| AddReaction (r : Reaction) (resize : bool)
| ResizeReactions.

Definition build_step (K : Kinetics) (op : build_op) : Kinetics :=
  match op with
  | AddThermo thermo => addThermo K thermo
  | AddReaction r resize =>
      match addReaction K r resize with
      | Returns (_, K') => K'
      | _ => K
      end
  | ResizeReactions => resizeReactions K
  end.

Definition build (ops : list build_op) : Kinetics :=
  fold_left build_step ops Kinetics_default.

(** The species count of a list of phases, and the phases added in order
    to a fresh manager. *)
Definition sum_species (ps : list ThermoPhase) : Z :=
  foldr (λ p acc, nSpecies p + acc) 0 ps.

Definition add_phases (K : Kinetics) (ps : list ThermoPhase) : Kinetics :=
  fold_left addThermo ps K.

(** ** Duplicate check *)












(** Modelled from the spec: [reactantStoichCoeff(k, i)] and
    [productStoichCoeff(k, i)] are declared in the class and defined in
    Kinetics.cpp; the spec's [netCoefficient(k, i)] is the entry of the
    net stoichiometric matrix.  Each reads the entry for species [k] and
    reaction [i] of its matrix. *)
Definition reactantStoichCoeff (K : Kinetics) (k i : Z) : double :=
  coeff (reactantStoichCoeffs K) k i.

Definition productStoichCoeff (K : Kinetics) (k i : Z) : double :=
  coeff (productStoichCoeffs K) k i.

Definition netCoefficient (K : Kinetics) (k i : Z) : double :=
  coeff (m_stoichMatrix K) k i.

(** The entries that the reactions [rs], numbered from zero, contribute
    on one side ([reactants] or [products]). *)
Definition side_triplets (side : Reaction -> gmap Z double) (rs : list Reaction)
  : list triplet :=
  concat (imap (λ n r, column_triplets (Z.of_nat n) (side r)) rs).

(** The stoichiometry managers hold the entries of the reactions added
    so far. *)
Definition coeffs_recorded (K : Kinetics) : Prop :=
  m_coeffList (m_reactantStoich K) = side_triplets reactants (m_reactions K) ∧
  m_coeffList (m_productStoich K) = side_triplets products (m_reactions K).

(** The stoichiometry identity, for all species and reactions at once. *)
Definition net_identity (K : Kinetics) : Prop :=
  ∀ k i, netCoefficient K k i =
         (productStoichCoeff K k i - reactantStoichCoeff K k i)%float.

End Kinetics.

(** * Pointers and the objects they refer to *)

(** A raw pointer is an address; [nullptr] is address zero.  The store
    maps the addresses of live objects to the objects. *)
Definition ptr : Type := Z.

Definition nullptr : ptr := 0.

(** * Class [ReactorBase] (ReactorBase.cpp) *)

Module ReactorBase.

Section Surfaces.

(** Class [ReactorSurface] is declared outside the sources: its objects
    and its member [setReactor] are taken as given. *)
Context {ReactorSurface : Type}.
Context (setReactor : ptr -> ReactorSurface -> ReactorSurface).

(** A reactor at address [this_], its list of surfaces, and the store of
    surface objects the pointers in the list refer to. *)
Record state : Type := {
  this_ : ptr;
  m_surfaces : list ptr;
  surfaces : gmap ptr ReactorSurface
}.

(** [ReactorBase(name)]: the surface list starts empty. *)
Definition ReactorBase_new (addr : ptr) (store : gmap ptr ReactorSurface) : state :=
  {| this_ := addr; m_surfaces := []; surfaces := store |}.

(** [addSurface(surf)]:
    [if (find(m_surfaces.begin(), m_surfaces.end(), surf) == m_surfaces.end()) {
         m_surfaces.push_back(surf);
         surf->setReactor(this);
     }] *)
Definition addSurface (st : state) (surf : ptr) : outcome state :=
  if bool_decide (surf ∈ m_surfaces st) then Returns st
  else
    match surfaces st !! surf with
    | Some obj =>
        Returns {| this_ := this_ st;
                   m_surfaces := (m_surfaces st ++ [surf])%list;
                   surfaces := <[surf := setReactor (this_ st) obj]> (surfaces st) |}
    | None => Undefined
    end.

(** [surface(n)]: [return m_surfaces[n];] *)
Definition surface (st : state) (n : Z) : outcome ptr :=
  vec_index (m_surfaces st) n.

(** Several calls of [addSurface] in a row. *)
Fixpoint addSurfaces (st : state) (l : list ptr) : outcome state :=
  match l with
  | [] => Returns st
  | surf :: l' => st' ← addSurface st surf; addSurfaces st' l'
  end.

End Surfaces.

Arguments state : clear implicits.

End ReactorBase.

(** * Connector factory (ConnectorFactory.cpp) *)

Module ConnectorFactory.

(** The classes the factory constructs. *)
Inductive ConnectorClass : Type :=
| MassFlowController | PressureController | Valve | Wall.

(** A connector object: its dynamic class, the two nodes it was
    constructed with, and its name. *)
Record Connector : Type := {
  dyn_class : ConnectorClass;
  node0 : ptr;
  node1 : ptr;
  m_name : string
}.

(** [ConnectorFactory::ConnectorFactory()]: the four registrations, each
    a creator [new C(r0, r1, name)]. *)
Definition creators : list (string * ConnectorClass) :=
  [ ("MassFlowController", MassFlowController);
    ("PressureController", PressureController);
    ("Valve", Valve);
    ("Wall", Wall) ].

Fixpoint lookup_creator (model : string) (regs : list (string * ConnectorClass))
  : option ConnectorClass :=
  match regs with
  | [] => None
  | (key, c) :: regs' =>
      if String.eqb key model then Some c else lookup_creator model regs'
  end.

Definition incompatible_tmpl : string :=
  "Detected incompatible Connector type '{}'".

Section Factory.

(** The classes [FlowDevice] and [WallBase] and the derivation of the
    four constructed classes from them are declared outside the sources
    ([FlowDevice.h], [flowControllers.h], [Wall.h]): which constructed
    class is a [FlowDevice] and which a [WallBase] is taken as given. *)
Context (isFlowDevice isWallBase : ConnectorClass -> bool).

(** [Factory::create] for a model that was never registered is defined
    outside the sources: the error it throws is taken as given. *)
Context (unknown_model : string -> exn).

(** The constructors of the four classes are defined outside the sources
    ([flowControllers.h], [FlowDevice.cpp], [Wall.h], ...): whether
    [new C(r0, r1, name)] returns or throws is taken as given.  What a
    constructor does to the two nodes is not part of this model; no
    function of the factory reads it. *)
Context (construct : ConnectorClass -> ptr -> ptr -> string -> outcome unit).

(** [ConnectorFactory::factory()->create(model, r0, r1, name)]: the
    creator registered for [model] runs [new C(r0, r1, name)].  When the
    constructor returns, the object has dynamic class [C], and the
    base-class constructor [Connector(r0, r1, name)] (Connector.h) has
    stored the nodes and the name in it. *)
Definition create (model : string) (r0 r1 : ptr) (name : string)
  : outcome Connector :=
  match lookup_creator model creators with
  | Some c =>
      _ ← construct c r0 r1 name;
      Returns {| dyn_class := c; node0 := r0; node1 := r1; m_name := name |}
  | None => Throws (unknown_model model)
  end.

(** [newConnector(model, r0, r1, name)]: a [shared_ptr] is [Some]
    object, or [None] for a null pointer. *)
Definition newConnector (model : string) (r0 r1 : ptr) (name : string)
  : outcome (option Connector) :=
  c ← create model r0 r1 name; Returns (Some c).

(** [std::dynamic_pointer_cast<T>(p)]. *)
Definition dynamic_pointer_cast (isT : ConnectorClass -> bool)
  (p : option Connector) : option Connector :=
  match p with
  | Some c => if isT (dyn_class c) then Some c else None
  | None => None
  end.

(** [newFlowDevice(model, name)]. *)
Definition newFlowDevice (model name : string) : outcome (option Connector) :=
  p ← newConnector model nullptr nullptr name;
  match dynamic_pointer_cast isFlowDevice p with
  | None => Throws (CanteraError "newFlowDevice" (format1 incompatible_tmpl model))
  | Some dev => Returns (Some dev)
  end.

(** [newWall(model, name)]. *)
Definition newWall (model name : string) : outcome (option Connector) :=
  p ← newConnector model nullptr nullptr name;
  match dynamic_pointer_cast isWallBase p with
  | None => Throws (CanteraError "newWall" (format1 incompatible_tmpl model))
  | Some wall => Returns (Some wall)
  end.

End Factory.

(** The derivation the class names and the tests of the repository
    suggest: the three flow controllers are flow devices, [Wall] is a
    wall. *)
Definition flow_devices (c : ConnectorClass) : bool :=
  match c with Wall => false | _ => true end.

Definition walls (c : ConnectorClass) : bool :=
  match c with Wall => true | _ => false end.

End ConnectorFactory.

(** * Reaction-added callbacks of a kinetics manager (Kinetics.h) *)

Module ReactionCallbacks.

Section Callbacks.

(** A [function<void()>]: the callbacks themselves are the caller's. *)
Context {callback : Type}.

(** The member [m_reactionAddedCallbacks], a [map<void*, function<void()>>];
    the two members below touch no other member of the class.

    [registerReactionAddedCallback(id, callback)]:
    [m_reactionAddedCallbacks[id] = callback;] *)
Definition registerReactionAddedCallback
  (m_reactionAddedCallbacks : gmap ptr callback) (id : ptr) (cb : callback)
  : gmap ptr callback :=
  <[id := cb]> m_reactionAddedCallbacks.

(** [removeReactionAddedCallback(id)]: [m_reactionAddedCallbacks.erase(id);] *)
Definition removeReactionAddedCallback
  (m_reactionAddedCallbacks : gmap ptr callback) (id : ptr)
  : gmap ptr callback :=
  delete id m_reactionAddedCallbacks.

End Callbacks.

End ReactionCallbacks.

(** * Inlets, outlets, walls and the network of a reactor (ReactorBase.cpp) *)

Module ReactorLinks.

(** The members of [ReactorBase] that [addInlet], [addOutlet], [addWall],
    [wall], [inlet], [outlet], [network] and [setNetwork] read and write.
    A reference to a flow device or wall is the address of the object. *)
Record links : Type := {
  m_inlet : list ptr;
  m_outlet : list ptr;
  m_wall : list ptr;
  m_lr : list Z;
  m_net : ptr
}.

(** [ReactorBase(name)]: the vectors start empty, [m_net(0)]. *)
Definition links_new : links :=
  {| m_inlet := []; m_outlet := []; m_wall := []; m_lr := []; m_net := nullptr |}.

(** [addInlet(inlet)]: [m_inlet.push_back(&inlet);] *)
Definition addInlet (st : links) (inlet : ptr) : links :=
  {| m_inlet := (m_inlet st ++ [inlet])%list; m_outlet := m_outlet st;
     m_wall := m_wall st; m_lr := m_lr st; m_net := m_net st |}.

(** [addOutlet(outlet)]: [m_outlet.push_back(&outlet);] *)
Definition addOutlet (st : links) (outlet : ptr) : links :=
  {| m_inlet := m_inlet st; m_outlet := (m_outlet st ++ [outlet])%list;
     m_wall := m_wall st; m_lr := m_lr st; m_net := m_net st |}.

(** The flag [addWall] stores for its argument [lr]. *)
Definition lr_flag (lr : Z) : Z := if decide (lr = 0) then 0 else 1.

(** [addWall(w, lr)]:
    [m_wall.push_back(&w);
     if (lr == 0) { m_lr.push_back(0); } else { m_lr.push_back(1); }] *)
Definition addWall (st : links) (w : ptr) (lr : Z) : links :=
  {| m_inlet := m_inlet st; m_outlet := m_outlet st;
     m_wall := (m_wall st ++ [w])%list;
     m_lr := (m_lr st ++ [lr_flag lr])%list;
     m_net := m_net st |}.

(** [wall(n)]: [return *m_wall[n];] and likewise [inlet(n)], [outlet(n)]. *)
Definition wall (st : links) (n : Z) : outcome ptr := vec_index (m_wall st) n.

Definition inlet (st : links) (n : Z) : outcome ptr := vec_index (m_inlet st) n.

Definition outlet (st : links) (n : Z) : outcome ptr := vec_index (m_outlet st) n.

(** [setNetwork(net)]: [m_net = net;] *)
Definition setNetwork (st : links) (net : ptr) : links :=
  {| m_inlet := m_inlet st; m_outlet := m_outlet st;
     m_wall := m_wall st; m_lr := m_lr st; m_net := net |}.

(** [network()]:
    [if (m_net) { return *m_net; }
     else { throw CanteraError("ReactorBase::network",
                               "Reactor is not part of a ReactorNet"); }] *)
Definition network (st : links) : outcome ptr :=
  if decide (m_net st = nullptr)
  then Throws (CanteraError "ReactorBase::network"
                 "Reactor is not part of a ReactorNet")
  else Returns (m_net st).

(** A call of one of the four members that change the links, and a run
    of such calls on a newly constructed reactor. *)
Inductive link_op : Type :=
| AddInlet (inlet : ptr)
| AddOutlet (outlet : ptr)
| AddWall (w : ptr) (lr : Z)
| SetNetwork (net : ptr).

Definition link_step (st : links) (op : link_op) : links :=
  match op with
  | AddInlet x => addInlet st x
  | AddOutlet x => addOutlet st x
  | AddWall w lr => addWall st w lr
  | SetNetwork net => setNetwork st net
  end.

Definition link_run (ops : list link_op) : links :=
  fold_left link_step ops links_new.

(** What a run of calls asked for, list by list. *)
Definition inlets_of (ops : list link_op) : list ptr :=
  omap (λ op, match op with AddInlet x => Some x | _ => None end) ops.

Definition outlets_of (ops : list link_op) : list ptr :=
  omap (λ op, match op with AddOutlet x => Some x | _ => None end) ops.

Definition walls_of (ops : list link_op) : list (ptr * Z) :=
  omap (λ op, match op with AddWall w lr => Some (w, lr) | _ => None end) ops.

Definition last_network (ops : list link_op) : ptr :=
  default nullptr
    (last (omap (λ op, match op with SetNetwork n => Some n | _ => None end) ops)).

End ReactorLinks.

(** * Functor factories (Func1Factory.cpp) *)

Module Func1Factory.

(** The classes the three factories construct. *)
Inductive BasicClass : Type :=
| Sin1 | Cos1 | Exp1 | Log1 | Pow1 | Const1 | Poly1 | Fourier1 | Gaussian1
| Arrhenius1.

Inductive Math1AClass : Type := Sum1 | Diff1 | Product1 | Ratio1 | Composite1.

Inductive Math1BClass : Type := TimesConstant1 | PlusConstant1 | Periodic1.

Section Factories.

(** A [shared_ptr<Func1>].  The functor classes and their constructors
    are declared outside the sources ([Func1.h]): what a constructor call
    yields (an object, or an exception for parameters it refuses) is
    taken as given. *)
Context {Func1 : Type}.

(** The constructor calls that occur in the creators. *)
Inductive new_expr : Type :=
| new_Func1
| new_basic (c : BasicClass) (params : list double)
| new_Tabulated1 (params : list double) (method : option string)
| new_binary (c : Math1AClass) (f1 f2 : Func1)
| new_modified (c : Math1BClass) (f : Func1) (coeff : double).

Context (construct : new_expr -> outcome Func1).

(** [Factory::create] for a type that was never registered is defined
    outside the sources: the error it throws is taken as given. *)
Context (unknown_type : string -> exn).

(** [reg(name, f)] stores the creator under its name, a later
    registration of the same name replacing an earlier one. *)
Definition reg {creator : Type} (m : gmap string creator) (entry : string * creator)
  : gmap string creator :=
  <[entry.1 := entry.2]> m.

(** [Func1Factory::Func1Factory()]: the thirteen registrations in the
    order of the constructor. *)
Definition Func1Factory_regs : list (string * (list double -> new_expr)) :=
  [ ("functor", λ params, new_Func1);
    ("sin", λ params, new_basic Sin1 params);
    ("cos", λ params, new_basic Cos1 params);
    ("exp", λ params, new_basic Exp1 params);
    ("log", λ params, new_basic Log1 params);
    ("pow", λ params, new_basic Pow1 params);
    ("constant", λ params, new_basic Const1 params);
    ("polynomial3", λ params, new_basic Poly1 params);
    ("Fourier", λ params, new_basic Fourier1 params);
    ("Gaussian", λ params, new_basic Gaussian1 params);
    ("Arrhenius", λ params, new_basic Arrhenius1 params);
    ("tabulated-linear", λ params, new_Tabulated1 params None);
    ("tabulated-previous", λ params, new_Tabulated1 params (Some "previous")) ].

(** [Math1FactoryA::Math1FactoryA()]. *)
Definition Math1FactoryA_regs : list (string * (Func1 -> Func1 -> new_expr)) :=
  [ ("sum", λ f1 f2, new_binary Sum1 f1 f2);
    ("diff", λ f1 f2, new_binary Diff1 f1 f2);
    ("product", λ f1 f2, new_binary Product1 f1 f2);
    ("ratio", λ f1 f2, new_binary Ratio1 f1 f2);
    ("composite", λ f1 f2, new_binary Composite1 f1 f2) ].

(** [Math1FactoryB::Math1FactoryB()]. *)
Definition Math1FactoryB_regs : list (string * (Func1 -> double -> new_expr)) :=
  [ ("times-constant", λ f c, new_modified TimesConstant1 f c);
    ("plus-constant", λ f c, new_modified PlusConstant1 f c);
    ("periodic", λ f c, new_modified Periodic1 f c) ].

(** The creators a factory holds once its constructor has run. *)
Definition registry {creator : Type} (regs : list (string * creator))
  : gmap string creator :=
  fold_left reg regs ∅.

(** [factory()->exists(name)]: a creator is registered under [name]. *)
Definition exists_ {creator : Type} (m : gmap string creator) (name : string) : bool :=
  bool_decide (is_Some (m !! name)).

(** [newFunc1(func1Type, params)]:
    [return Func1Factory::factory()->create(func1Type, params);] *)
Definition newFunc1 (func1Type : string) (params : list double) : outcome Func1 :=
  match registry Func1Factory_regs !! func1Type with
  | Some creator => construct (creator params)
  | None => Throws (unknown_type func1Type)
  end.

(** [newFunc1(func1Type, coeff)]:
    [return Func1Factory::factory()->create(func1Type, {coeff});] *)
Definition newFunc1_coeff (func1Type : string) (coeff : double) : outcome Func1 :=
  newFunc1 func1Type [coeff].

(** [newFunc1(func1Type, f1, f2)]:
    [return Math1FactoryA::factory()->create(func1Type, f1, f2);] *)
Definition newFunc1_binary (func1Type : string) (f1 f2 : Func1) : outcome Func1 :=
  match registry Math1FactoryA_regs !! func1Type with
  | Some creator => construct (creator f1 f2)
  | None => Throws (unknown_type func1Type)
  end.

(** [newFunc1(func1Type, f, coeff)]:
    [return Math1FactoryB::factory()->create(func1Type, f, coeff);] *)
Definition newFunc1_modified (func1Type : string) (f : Func1) (coeff : double)
  : outcome Func1 :=
  match registry Math1FactoryB_regs !! func1Type with
  | Some creator => construct (creator f coeff)
  | None => Throws (unknown_type func1Type)
  end.

(** [checkFunc1(func1Type)]. *)
Definition checkFunc1 (func1Type : string) : string :=
  if exists_ (registry Func1Factory_regs) func1Type then "standard"
  else if exists_ (registry Math1FactoryA_regs) func1Type then "compound"
  else if exists_ (registry Math1FactoryB_regs) func1Type then "modified"
  else "undefined".

End Factories.

(** The names registered with each factory. *)
Definition standard_names : list string :=
  [ "functor"; "sin"; "cos"; "exp"; "log"; "pow"; "constant"; "polynomial3";
    "Fourier"; "Gaussian"; "Arrhenius"; "tabulated-linear"; "tabulated-previous" ].

Definition compound_names : list string :=
  [ "sum"; "diff"; "product"; "ratio"; "composite" ].

Definition modified_names : list string :=
  [ "times-constant"; "plus-constant"; "periodic" ].

Definition all_names : list string :=
  (standard_names ++ compound_names ++ modified_names)%list.

End Func1Factory.

(** * Concrete objects used as examples *)

(** A manager with a single phase of twelve species and no reaction. *)
Definition one_phase_manager : Kinetics.Kinetics :=
  Kinetics.addThermo Kinetics.Kinetics_default
    {| Kinetics.phase_name := "a"; Kinetics.nSpecies := 12 |}.

(** The three phases of the example in the class documentation. *)
Definition three_phases : list Kinetics.ThermoPhase :=
  [ {| Kinetics.phase_name := "first"; Kinetics.nSpecies := 12 |};
    {| Kinetics.phase_name := "second"; Kinetics.nSpecies := 26 |};
    {| Kinetics.phase_name := "third"; Kinetics.nSpecies := 3 |} ].

(** A reversible reaction [2 S0 <=> S1] and a mechanism built from it. *)
Definition two_to_one : Kinetics.Reaction :=
  {| Kinetics.reactants := {[ 0 := 2%float ]};
     Kinetics.products := {[ 1 := 1%float ]};
     Kinetics.reversible := true |}.

Definition small_mechanism : list Kinetics.build_op :=
  [ Kinetics.AddThermo {| Kinetics.phase_name := "gas"; Kinetics.nSpecies := 3 |};
    Kinetics.AddReaction two_to_one false;
    Kinetics.AddReaction two_to_one true ].

(** A manager with one phase of three species and the reaction
    [two_to_one] twice, both multipliers at 1.0, after an evaluation has
    left a value in its cache. *)
Definition cached_manager : Kinetics.Kinetics :=
  {| Kinetics.m_cache := {[ 7 := [1.5%float] ]};
     Kinetics.m_reactantStoich := Kinetics.empty_stoich;
     Kinetics.m_productStoich := Kinetics.empty_stoich;
     Kinetics.m_revProductStoich := Kinetics.empty_stoich;
     Kinetics.m_stoichMatrix := Kinetics.empty_matrix;
     Kinetics.m_ready := false;
     Kinetics.m_kk := 3;
     Kinetics.m_perturb := [1%float; 1%float];
     Kinetics.m_reactions := [two_to_one; two_to_one];
     Kinetics.m_thermo :=
       [ {| Kinetics.phase_name := "gas"; Kinetics.nSpecies := 3 |} ];
     Kinetics.m_start := [0];
     Kinetics.m_phaseindex := {[ "gas" := 1 ]};
     Kinetics.m_revindex := [0; 1];
     Kinetics.m_irrev := [];
     Kinetics.m_skipUndeclaredSpecies := false |}.






(** A reactor at address 1 with two live surfaces, at addresses 10 and
    11, a surface being represented by the reactor it points back to. *)
Definition two_surfaces : gmap ptr ptr := {[ 10 := nullptr; 11 := nullptr ]}.

Definition set_back_pointer (reactor : ptr) (surf : ptr) : ptr := reactor.

(** The same reactor once the surface at address 10 has been added. *)
Definition reactor_with_surface : ReactorBase.state ptr :=
  {| ReactorBase.this_ := 1;
     ReactorBase.m_surfaces := [10];
     ReactorBase.surfaces := {[ 10 := 1; 11 := nullptr ]} |}.

(** The error [Factory::create] is taken to throw in the examples. *)
Definition no_such_type (model : string) : exn :=
  CanteraError "Factory::create" model.

(** Constructors that all return, and constructors of which the one of
    [Valve] throws. *)
Definition construct_returns (c : ConnectorFactory.ConnectorClass)
    (r0 r1 : ptr) (name : string) : outcome unit :=
  Returns tt.

Definition construct_no_valve (c : ConnectorFactory.ConnectorClass)
    (r0 r1 : ptr) (name : string) : outcome unit :=
  match c with
  | ConnectorFactory.Valve => Throws (CanteraError "Valve::Valve" name)
  | _ => Returns tt
  end.

(** The [Wall] named "w" that the factory creates between no nodes. *)
Definition wall_w : ConnectorFactory.Connector :=
  {| ConnectorFactory.dyn_class := ConnectorFactory.Wall;
     ConnectorFactory.node0 := nullptr;
     ConnectorFactory.node1 := nullptr;
     ConnectorFactory.m_name := "w" |}.

(** [cached_manager] once the multiplier of reaction 0 is set to 0.0. *)
Definition multiplier_set (K : Kinetics.Kinetics) : Kinetics.Kinetics :=
  Kinetics.set_m_perturb (<[0%nat := 0%float]> (Kinetics.m_perturb K)) K.

(** A manager with the given phase-name map and nothing else. *)
Definition set_m_phaseindex (pi : gmap string Z) (K : Kinetics.Kinetics)
  : Kinetics.Kinetics :=
  {| Kinetics.m_cache := Kinetics.m_cache K;
     Kinetics.m_reactantStoich := Kinetics.m_reactantStoich K;
     Kinetics.m_productStoich := Kinetics.m_productStoich K;
     Kinetics.m_revProductStoich := Kinetics.m_revProductStoich K;
     Kinetics.m_stoichMatrix := Kinetics.m_stoichMatrix K;
     Kinetics.m_ready := Kinetics.m_ready K;
     Kinetics.m_kk := Kinetics.m_kk K;
     Kinetics.m_perturb := Kinetics.m_perturb K;
     Kinetics.m_reactions := Kinetics.m_reactions K;
     Kinetics.m_thermo := Kinetics.m_thermo K;
     Kinetics.m_start := Kinetics.m_start K;
     Kinetics.m_phaseindex := pi;
     Kinetics.m_revindex := Kinetics.m_revindex K;
     Kinetics.m_irrev := Kinetics.m_irrev K;
     Kinetics.m_skipUndeclaredSpecies := Kinetics.m_skipUndeclaredSpecies K |}.

(** [reactor_with_surface] after the surfaces at 11 and at 10 are added. *)
Definition surfaces_added : ReactorBase.state ptr :=
  {| ReactorBase.this_ := 1;
     ReactorBase.m_surfaces := [10; 11];
     ReactorBase.surfaces := {[ 10 := 1; 11 := 1 ]} |}.

(** Calls on a new reactor: two walls (the second on side 7), an inlet,
    a network at address 9, the first wall once more. *)
Definition some_links : list ReactorLinks.link_op :=
  [ ReactorLinks.AddWall 20 0; ReactorLinks.AddWall 21 7; ReactorLinks.AddInlet 30;
    ReactorLinks.SetNetwork 9; ReactorLinks.AddWall 20 1 ].

(** Functors that carry no data: every constructor call succeeds. *)
Definition construct_unit (e : Func1Factory.new_expr (Func1:=unit)) : outcome unit :=
  Returns tt.

(** * Properties *)

Import Kinetics.

(** ** Machine integers and strings *)

Lemma wrap_small (z : Z) : 0 <= z < size_t_modulus -> wrap z = z.
Proof. intros Hz. unfold wrap. by apply Z.mod_small. Qed.

Lemma wrap_range (z : Z) : 0 <= wrap z < size_t_modulus.
Proof. unfold wrap, size_t_modulus. apply Z.mod_pos_bound. lia. Qed.

Lemma wrap_add_l (a b : Z) : wrap (wrap a + b) = wrap (a + b).
Proof. unfold wrap. apply Zplus_mod_idemp_l. Qed.

Lemma is_prefix_app (s t : string) : is_prefix s (s ++ t) = true.
Proof.
  induction s as [|a s IH]; [done|].
  simpl. by rewrite Ascii.eqb_refl, IH.
Qed.

Lemma is_infix_unfold (p s : string) :
  is_infix p s =
  is_prefix p s || match s with EmptyString => false | String _ s' => is_infix p s' end.
Proof. by destruct s. Qed.

Lemma is_infix_app (a s b : string) : is_infix s (a ++ s ++ b) = true.
Proof.
  induction a as [|c a IH].
  - change (is_infix s (s ++ b) = true).
    rewrite is_infix_unfold. by rewrite is_prefix_app.
  - change (is_infix s (String c (a ++ s ++ b)) = true).
    rewrite is_infix_unfold. rewrite IH. apply orb_true_r.
Qed.

Lemma format1_not_applicable (ty : string) :
  format1 not_applicable_tmpl ty =
  "Not applicable/implemented for Kinetics object of type '" ++ ty ++ "'".
Proof. reflexivity. Qed.

Lemma format1_not_implemented (ty : string) :
  format1 not_implemented_tmpl ty =
  "Not implemented for kinetics type '" ++ ty ++ "'.".
Proof. reflexivity. Qed.

Lemma vec_index_Returns {A : Type} (v : list A) (i : Z) (a : A) :
  vec_index v i = Returns a <-> 0 <= i /\ v !! Z.to_nat i = Some a.
Proof.
  unfold vec_index. case_decide as Hi.
  - destruct (v !! Z.to_nat i) as [x|] eqn:E.
    + split; [intros [= ->]; done | intros [_ [= ->]]; done].
    + split; [done | intros [_ [=]]].
  - split; [done|]. intros [? _]. lia.
Qed.

Lemma vec_index_size {A : Type} (v : list A) : vec_index v (vec_size v) = Undefined.
Proof.
  unfold vec_index, vec_size. case_decide; [|done].
  rewrite Nat2Z.id. by rewrite (lookup_ge_None_2 v (length v)).
Qed.

(** ** Phase lookup by name *)

(** C8: [phaseIndex(ph)] returns [npos] when [ph] is not a key of the
    phase-name map, and otherwise the stored position minus one (in
    [size_t] arithmetic, which is the plain difference for a stored
    position of at least 1); it returns in every case, it never throws. *)
Theorem phaseIndex_spec (K : Kinetics) (ph : string) :
  match m_phaseindex K !! ph with
  | None => phaseIndex K ph = Returns npos
  | Some v =>
      phaseIndex K ph = Returns (wrap (v - 1)) /\
      (1 <= v <= size_t_modulus -> wrap (v - 1) = v - 1)
  end /\ throws (phaseIndex K ph) = false /\ returns (phaseIndex K ph) = true.
Proof.
  unfold phaseIndex, map_at.
  destruct (m_phaseindex K !! ph) as [v|] eqn:E; simpl.
  - repeat split; try done. intros Hv. apply wrap_small. lia.
  - done.
Qed.

(** With [addThermo] as the spec has it, the position stored for a newly
    added phase is its one-based position, so [phaseIndex] yields the
    zero-based index of the phase. *)
Lemma phaseIndex_addThermo (K : Kinetics) (p : ThermoPhase) :
  nPhases K + 1 < size_t_modulus ->
  phaseIndex (addThermo K p) (phase_name p) = Returns (nPhases K).
Proof.
  intros Hn. unfold phaseIndex, map_at, addThermo; simpl.
  rewrite lookup_insert_eq. simpl.
  assert (0 <= nPhases K) by (unfold nPhases, vec_size; lia).
  rewrite (wrap_small (nPhases K + 1)) by lia.
  f_equal. rewrite wrap_small; lia.
Qed.

(** ** Multipliers and the value cache *)

(** C4, as stated, fails: on a manager with two reactions and one
    cached value, [setMultiplier(0, 0.0)] returns with the cached value
    still in place. *)
Lemma setMultiplier_invalidates_cex :
  (exists K', setMultiplier cached_manager 0 0%float = Returns K' /\
              m_cache K' !! 7 = Some [1.5%float]) /\
  ~ (forall K i f K', setMultiplier K i f = Returns K' -> m_cache K' = ∅).
Proof.
  split.
  - eexists. split; [by vm_compute|]. by vm_compute.
  - intros H.
    assert (E : exists K', setMultiplier cached_manager 0 0%float = Returns K' /\
                           m_cache K' !! 7 = Some [1.5%float])
      by (eexists; split; by vm_compute).
    destruct E as (K' & E & Hc).
    specialize (H cached_manager 0 0%float K' E).
    rewrite H in Hc. done.
Qed.


(** C4, amended: for a valid reaction index, [setMultiplier(i, f)]
    returns, stores [f] as the multiplier of reaction [i] and leaves the
    value cache as it was; the cache is emptied by [invalidateCache()]. *)
Theorem setMultiplier_keeps_cache (K : Kinetics) (i : Z) (f : double) :
  0 <= i < vec_size (m_perturb K) ->
  exists K', setMultiplier K i f = Returns K' /\
             m_cache K' = m_cache K /\
             multiplier K' i = Returns f /\
             m_cache (invalidateCache K') = ∅.
Proof.
  intros [Hi0 Hi]. unfold vec_size in Hi.
  assert (Hlt : (Z.to_nat i < length (m_perturb K))%nat) by lia.
  destruct (lookup_lt_is_Some_2 _ _ Hlt) as [x Hx].
  eexists. unfold setMultiplier, vec_index.
  rewrite decide_True by done. rewrite Hx. simpl.
  split; [reflexivity|]. split; [done|]. split; [|done].
  unfold multiplier, vec_index. simpl.
  rewrite decide_True by done.
  by rewrite list_lookup_insert_eq.
Qed.

(** The amended statement at [cached_manager], reaction 0, multiplier 0.0. *)
Lemma setMultiplier_keeps_cache_witness :
  exists K', setMultiplier cached_manager 0 0%float = Returns K' /\
             m_cache K' = m_cache cached_manager /\
             multiplier K' 0 = Returns 0%float /\
             m_cache (invalidateCache K') = ∅.
Proof.
  apply (setMultiplier_keeps_cache cached_manager 0 0%float).
  split; [done | by vm_compute].
Defined.

(** ** Members the concrete manager does not override *)

Lemma mentions_passed_type (ty : string) (op : VirtualOp) :
  passes_type op = true -> mentions ty (base_body ty op) = true.
Proof.
  intros Hop. unfold mentions.
  destruct op; try discriminate Hop; cbn [base_body NotImplementedError3 exn_message];
    rewrite ?format1_not_applicable, ?format1_not_implemented;
    rewrite is_infix_app; apply orb_true_r.
Qed.

Lemma base_body_fixed (ty ty' : string) (op : VirtualOp) :
  passes_type op = false -> base_body ty' op = base_body ty op.
Proof. intros Hop. by destruct op. Qed.

(** C5, as stated, fails: called on a manager whose type name is "none"
    (the base class itself), [getEquilibriumConstants] and
    [getDeltaGibbs] throw a not-implemented error that names the function
    only; the type name occurs nowhere in it. *)
Lemma unsupported_names_type_cex :
  (call_unsupported kineticsType op_getEquilibriumConstants =
     Throws (NotImplementedError "Kinetics::getEquilibriumConstants" not_implemented_text) /\
   mentions kineticsType (base_body kineticsType op_getEquilibriumConstants) = false /\
   mentions kineticsType (base_body kineticsType op_getDeltaGibbs) = false) /\
  ~ (forall ty op, exists e,
       call_unsupported ty op = Throws e /\ is_not_implemented e = true /\
       mentions ty e = true).
Proof.
  split; [by vm_compute|].
  intros H. destruct (H kineticsType op_getEquilibriumConstants) as (e & He & _ & Hm).
  injection He as <-. vm_compute in Hm. discriminate.
Qed.

(** The class has 36 virtual members whose base-class body only throws;
    [all_virtual_ops] lists each of them once.  22 pass the manager's
    type name on, 14 do not. *)
Lemma virtual_ops_listed :
  (forall op, op ∈ all_virtual_ops) /\
  NoDup (member_name <$> all_virtual_ops) /\
  length all_virtual_ops = 36%nat /\
  length (filter (fun op => passes_type op = true) all_virtual_ops) = 22%nat /\
  length (filter (fun op => passes_type op = false) all_virtual_ops) = 14%nat.
Proof.
  split; [|split; [|by vm_compute]].
  - intros op. apply list_elem_of_In. destruct op; simpl; tauto.
  - apply (bool_decide_unpack _). by vm_compute.
Qed.

(** C5, amended: each of the 36 virtual members whose base-class body in
    the class only throws raises, when the concrete manager (of type name
    [ty]) does not override it, a not-implemented error whose function
    name is [Kinetics::<member>], the member's own name.  For the members
    of [passes_type] (the two third-body-concentration members, the two
    derivative-settings members and the 18 derivative members) the
    message is the format string of the body with the manager's type name
    in it, so it includes the type name; for the other 14 (equilibrium
    constants, the reaction deltas, the orders, activity concentrations,
    forward and reverse rate constants, [updateROP]) the message is the
    fixed text of the one-argument error and the error is the same
    whatever the manager's type.  Virtual members with a working
    base-class body ([init], [setMultiplier], [invalidateCache],
    [setRoot], [kineticsType]) or with a body in Kinetics.cpp are not
    among the 36 and the statement says nothing of them. *)
Theorem unsupported_not_implemented (ty : string) (op : VirtualOp) :
  exists e,
    call_unsupported ty op = Throws e /\
    is_not_implemented e = true /\
    exn_func e = "Kinetics::" ++ member_name op /\
    is_prefix "Kinetics::" (exn_func e) = true /\
    if passes_type op
    then exn_message e =
           (if third_body_member op
            then "Not applicable/implemented for Kinetics object of type '"
                 ++ ty ++ "'"
            else "Not implemented for kinetics type '" ++ ty ++ "'.") /\
         is_infix ty (exn_message e) = true /\
         mentions ty e = true
    else exn_message e = not_implemented_text /\
         forall ty', base_body ty' op = e.
Proof.
  exists (base_body ty op). split; [done|].
  split; [by destruct op|]. split; [by destruct op|].
  split; [by destruct op|].
  destruct (passes_type op) eqn:Hop.
  - split; [by destruct op|].
    pose proof (mentions_passed_type ty op Hop) as Hm. split; [|done].
    destruct op; try discriminate Hop;
      cbn [base_body NotImplementedError3 exn_message];
      rewrite ?format1_not_applicable, ?format1_not_implemented;
      apply is_infix_app.
  - split; [by destruct op|].
    intros ty'. by apply base_body_fixed.
Qed.

(** The statement for a manager of type "bulk" that does not override
    [getFwdRateConstants_ddT]. *)
Lemma unsupported_not_implemented_witness :
  exists e,
    call_unsupported "bulk" op_getFwdRateConstants_ddT = Throws e /\
    is_not_implemented e = true /\
    exn_func e = "Kinetics::getFwdRateConstants_ddT" /\
    is_prefix "Kinetics::" (exn_func e) = true /\
    exn_message e = "Not implemented for kinetics type 'bulk'." /\
    is_infix "bulk" (exn_message e) = true /\
    mentions "bulk" e = true.
Proof. exact (unsupported_not_implemented "bulk" op_getFwdRateConstants_ddT). Defined.

(** ** Bounds checks *)

(** C6, as stated, fails: [phase(n)] indexes [m_thermo] without a check,
    so one past the last phase it reads out of bounds instead of raising;
    [multiplier(i)] does the same on [m_perturb]; [isReversible(i)]
    one past the last reaction returns [false]; and
    [kineticsSpeciesIndex(k, n)] returns [m_start[n] + k] whatever [k]. *)
Lemma accessor_one_past_cex :
  (phase Kinetics_default (nPhases Kinetics_default) = Undefined /\
   multiplier Kinetics_default (nReactions Kinetics_default) = Undefined /\
   isReversible Kinetics_default (nReactions Kinetics_default) = Returns false /\
   phase one_phase_manager (nPhases one_phase_manager) = Undefined /\
   kineticsSpeciesIndex one_phase_manager (nTotalSpecies one_phase_manager) 0 =
     Returns 12) /\
  ~ (forall K, exists e,
       phase K (nPhases K) = Throws e /\ is_index_error e = true) /\
  ~ (forall K, exists e,
       isReversible K (nReactions K) = Throws e /\ is_index_error e = true).
Proof.
  split; [by vm_compute|]. split.
  - intros H. destruct (H Kinetics_default) as (e & He & _).
    vm_compute in He. discriminate.
  - intros H. destruct (H Kinetics_default) as (e & He & _).
    vm_compute in He. discriminate.
Qed.

(** C6, amended: the dedicated check members raise the
    index-out-of-range condition for an index one past the valid count
    (and for every larger one) and return for a smaller index; the
    array-size checks return for every size that is at least the count;
    the inline accessors [phase], [multiplier], [isReversible] and
    [kineticsSpeciesIndex(k, n)] perform no check of their own: one past
    the count [phase] and [multiplier] read out of bounds,
    [isReversible(i)] returns whether [i] is among the reversible
    reactions for every [i], and [kineticsSpeciesIndex(k, n)] returns
    [m_start[n] + k] for a valid phase index [n] and every [k]. *)
Theorem bounds_checks (K : Kinetics) :
  (forall m, nReactions K <= m ->
     exists e, checkReactionIndex K m = Throws e /\ is_index_error e = true) /\
  (forall k, nTotalSpecies K <= k ->
     exists e, checkSpeciesIndex K k = Throws e /\ is_index_error e = true) /\
  (forall m, nPhases K <= m ->
     exists e, checkPhaseIndex K m = Throws e /\ is_index_error e = true) /\
  (forall m, m < nReactions K -> checkReactionIndex K m = Returns tt) /\
  (forall k, k < nTotalSpecies K -> checkSpeciesIndex K k = Returns tt) /\
  (forall m, m < nPhases K -> checkPhaseIndex K m = Returns tt) /\
  (forall sz, nReactions K <= sz -> checkReactionArraySize K sz = Returns tt) /\
  (forall sz, nTotalSpecies K <= sz -> checkSpeciesArraySize K sz = Returns tt) /\
  (forall sz, nPhases K <= sz -> checkPhaseArraySize K sz = Returns tt) /\
  phase K (nPhases K) = Undefined /\
  multiplier K (vec_size (m_perturb K)) = Undefined /\
  (forall i, isReversible K i = Returns (bool_decide (i ∈ m_revindex K))) /\
  (forall (n : nat) s k, m_start K !! n = Some s ->
     kineticsSpeciesIndex K k (Z.of_nat n) = Returns (wrap (s + k))).
Proof.
  unfold checkReactionIndex, checkSpeciesIndex, checkPhaseIndex,
    checkReactionArraySize, checkSpeciesArraySize, checkPhaseArraySize.
  repeat split; intros; try (case_decide; [|lia]; eexists; split; reflexivity);
    try (case_decide; [lia|reflexivity]).
  - apply vec_index_size.
  - apply vec_index_size.
  - unfold kineticsSpeciesIndex, vec_index.
    rewrite decide_True by lia. rewrite Nat2Z.id.
    match goal with H : m_start K !! _ = Some _ |- _ => rewrite H end. done.
Qed.

(** The statement at [one_phase_manager]: phase index 1 is refused,
    species index 11 and a buffer of 12 species are accepted. *)
Lemma bounds_checks_witness :
  (exists e, checkPhaseIndex one_phase_manager 1 = Throws e /\ is_index_error e = true) /\
  checkSpeciesIndex one_phase_manager 11 = Returns tt /\
  checkSpeciesArraySize one_phase_manager 12 = Returns tt.
Proof.
  destruct (bounds_checks one_phase_manager)
    as (_ & _ & Hphase & _ & Hspecies & _ & _ & Hsize & _).
  split; [apply Hphase; by vm_compute|].
  split; [apply Hspecies; by vm_compute | apply Hsize; by vm_compute].
Defined.

(** ** Species layout across phases *)

Lemma sum_species_app (a b : list ThermoPhase) :
  sum_species (a ++ b) = sum_species a + sum_species b.
Proof.
  unfold sum_species. induction a as [|p a IH]; simpl; [done|].
  rewrite IH. lia.
Qed.

Lemma sum_species_nonneg (ps : list ThermoPhase) :
  (forall q, q ∈ ps -> 0 <= nSpecies q) -> 0 <= sum_species ps.
Proof.
  induction ps as [|p ps IH]; intros Hps; [done|].
  change (0 <= nSpecies p + sum_species ps).
  assert (0 <= nSpecies p) by (apply Hps; left).
  assert (0 <= sum_species ps) by (apply IH; intros q Hq; apply Hps; by right).
  lia.
Qed.

Lemma sum_species_take (ps : list ThermoPhase) (n : nat) (p : ThermoPhase) :
  (forall q, q ∈ ps -> 0 <= nSpecies q) ->
  ps !! n = Some p ->
  0 <= sum_species (take n ps) /\
  sum_species (take n ps) + nSpecies p <= sum_species ps.
Proof.
  intros Hps Hn.
  pose proof (take_drop_middle ps n p Hn) as Hsplit.
  assert (Ht : 0 <= sum_species (take n ps)).
  { apply sum_species_nonneg. intros q Hq. apply Hps.
    rewrite <- Hsplit. apply elem_of_app. by left. }
  assert (Hd : 0 <= sum_species (drop (S n) ps)).
  { apply sum_species_nonneg. intros q Hq. apply Hps.
    rewrite <- Hsplit. apply elem_of_app. right. by right. }
  split; [done|].
  rewrite <- Hsplit at 2. rewrite sum_species_app.
  change (sum_species (p :: drop (S n) ps))
    with (nSpecies p + sum_species (drop (S n) ps)).
  lia.
Qed.

Lemma add_phases_start_prefix (ps : list ThermoPhase) (K : Kinetics) (i : nat) (x : Z) :
  m_start K !! i = Some x -> m_start (add_phases K ps) !! i = Some x.
Proof.
  revert K. induction ps as [|p ps IH]; intros K Hi; [done|].
  apply (IH (addThermo K p)). simpl. by apply lookup_app_l_Some.
Qed.

Lemma add_phases_start (ps : list ThermoPhase) (K : Kinetics) (n : nat) (p : ThermoPhase) :
  wrap (m_kk K) = m_kk K ->
  ps !! n = Some p ->
  m_start (add_phases K ps) !! (length (m_start K) + n)%nat =
    Some (wrap (m_kk K + sum_species (take n ps))).
Proof.
  revert K n. induction ps as [|q ps IH]; intros K n HK Hn; [done|].
  destruct n as [|n].
  - change (add_phases K (q :: ps)) with (add_phases (addThermo K q) ps).
    apply add_phases_start_prefix. simpl.
    rewrite Nat.add_0_r, Z.add_0_r, HK.
    by rewrite lookup_app_r, Nat.sub_diag.
  - change (add_phases K (q :: ps)) with (add_phases (addThermo K q) ps).
    simpl in Hn.
    pose proof (IH (addThermo K q) n) as IH'.
    simpl in IH'. rewrite length_app in IH'. simpl in IH'.
    replace (length (m_start K) + S n)%nat with (length (m_start K) + 1 + n)%nat by lia.
    rewrite IH'; [|apply Z.mod_mod; unfold size_t_modulus; lia|done].
    f_equal. rewrite wrap_add_l.
    change (sum_species (take (S n) (q :: ps)))
      with (nSpecies q + sum_species (take n ps)).
    f_equal. lia.
Qed.

Lemma add_phases_kk (ps : list ThermoPhase) (K : Kinetics) :
  wrap (m_kk K) = m_kk K ->
  m_kk (add_phases K ps) = wrap (m_kk K + sum_species ps).
Proof.
  revert K. induction ps as [|q ps IH]; intros K HK.
  - simpl. by rewrite Z.add_0_r, HK.
  - change (add_phases K (q :: ps)) with (add_phases (addThermo K q) ps).
    rewrite IH; [|apply Z.mod_mod; unfold size_t_modulus; lia].
    simpl. rewrite wrap_add_l.
    change (sum_species (q :: ps)) with (nSpecies q + sum_species ps).
    f_equal. lia.
Qed.

Lemma add_phases_thermo (ps : list ThermoPhase) (K : Kinetics) :
  m_thermo (add_phases K ps) = (m_thermo K ++ ps)%list.
Proof.
  revert K. induction ps as [|q ps IH]; intros K.
  - simpl. by rewrite app_nil_r.
  - change (add_phases K (q :: ps)) with (add_phases (addThermo K q) ps).
    rewrite IH. simpl. by rewrite <- app_assoc.
Qed.

(** C3: after the phases [ps] have been added in order to a fresh
    manager (their species counts summing to a [size_t] value), for the
    phase at index [n] and every species index [k] within it,
    [kineticsSpeciesIndex(k, n)] is the sum of the species counts of the
    earlier phases plus [k]; [kineticsSpeciesIndex(0, n)] is that sum; and
    [nTotalSpecies()] is the sum of all the counts. *)
Theorem species_index_contiguous
  (ps : list ThermoPhase) (n : nat) (p : ThermoPhase) (k : Z) :
  (forall q, q ∈ ps -> 0 <= nSpecies q) ->
  sum_species ps < size_t_modulus ->
  ps !! n = Some p ->
  0 <= k < nSpecies p ->
  kineticsSpeciesIndex (add_phases Kinetics_default ps) k (Z.of_nat n) =
    Returns (sum_species (take n ps) + k) /\
  kineticsSpeciesIndex (add_phases Kinetics_default ps) 0 (Z.of_nat n) =
    Returns (sum_species (take n ps)) /\
  nTotalSpecies (add_phases Kinetics_default ps) = sum_species ps /\
  nPhases (add_phases Kinetics_default ps) = Z.of_nat (length ps).
Proof.
  intros Hps Hsum Hn Hk.
  destruct (sum_species_take ps n p Hps Hn) as [Ht Hle].
  pose proof (add_phases_start ps Kinetics_default n p eq_refl Hn) as Hs.
  simpl in Hs.
  assert (Hidx : forall j, 0 <= j < nSpecies p \/ j = 0 ->
    kineticsSpeciesIndex (add_phases Kinetics_default ps) j (Z.of_nat n) =
      Returns (sum_species (take n ps) + j)).
  { intros j Hj. unfold kineticsSpeciesIndex, vec_index.
    rewrite decide_True by lia. rewrite Nat2Z.id, Hs.
    change (Returns (wrap (wrap (sum_species (take n ps)) + j)) =
            Returns (sum_species (take n ps) + j)).
    f_equal. rewrite wrap_add_l. apply wrap_small. lia. }
  split; [apply Hidx; by left|].
  split; [rewrite (Hidx 0) by (by right); f_equal; lia|].
  split.
  - unfold nTotalSpecies. rewrite add_phases_kk by done. simpl.
    apply wrap_small. split; [by apply sum_species_nonneg|done].
  - unfold nPhases, vec_size. by rewrite add_phases_thermo.
Qed.

(** The statement at the three phases of the class documentation, for
    species 2 of the third phase. *)
Lemma species_index_contiguous_witness :
  kineticsSpeciesIndex (add_phases Kinetics_default three_phases) 2 (Z.of_nat 2) =
    Returns (sum_species (take 2 three_phases) + 2) /\
  kineticsSpeciesIndex (add_phases Kinetics_default three_phases) 0 (Z.of_nat 2) =
    Returns (sum_species (take 2 three_phases)) /\
  nTotalSpecies (add_phases Kinetics_default three_phases) = sum_species three_phases /\
  nPhases (add_phases Kinetics_default three_phases) = Z.of_nat (length three_phases).
Proof.
  apply (species_index_contiguous three_phases 2
           {| phase_name := "third"; nSpecies := 3 |} 2).
  - intros q Hq. unfold three_phases in Hq.
    repeat (apply elem_of_cons in Hq as [-> | Hq]; [simpl; lia|]).
    by apply elem_of_nil in Hq.
  - vm_compute. reflexivity.
  - reflexivity.
  - simpl. lia.
Defined.

(** The values of the example in the class documentation:
    [kineticsSpeciesIndex(7, 0) = 7], [kineticsSpeciesIndex(4, 1) = 16]
    and [kineticsSpeciesIndex(2, 2) = 40], with 41 species in total. *)
Example species_index_documented :
  let K := add_phases Kinetics_default three_phases in
  kineticsSpeciesIndex K 7 0 = Returns 7 /\
  kineticsSpeciesIndex K 4 1 = Returns 16 /\
  kineticsSpeciesIndex K 2 2 = Returns 40 /\
  nTotalSpecies K = 41.
Proof. by vm_compute. Qed.

(** ** Stoichiometry matrices *)

Lemma coeff_sparse_sub (A B : SparseMatrix) (k i : Z) :
  coeff (sparse_sub A B) k i = (coeff A k i - coeff B k i)%float.
Proof.
  unfold coeff, sparse_sub; simpl. rewrite lookup_merge.
  destruct (entries A !! (k, i)), (entries B !! (k, i)); reflexivity.
Qed.

Lemma net_identity_default : net_identity Kinetics_default.
Proof. intros k i. reflexivity. Qed.

Lemma net_identity_resizeReactions (K : Kinetics) : net_identity (resizeReactions K).
Proof. intros k i. apply coeff_sparse_sub. Qed.

Lemma net_identity_addThermo (K : Kinetics) (p : ThermoPhase) :
  net_identity K -> net_identity (addThermo K p).
Proof. intros HK k i. apply HK. Qed.

Lemma net_identity_addReaction (K K' : Kinetics) (r : Reaction) (resize added : bool) :
  net_identity K ->
  addReaction K r resize = Returns (added, K') ->
  net_identity K'.
Proof.
  intros HK. unfold addReaction.
  destruct (declared K (reactants r) && declared K (products r)).
  - destruct resize; intros [= _ <-].
    + apply net_identity_resizeReactions.
    + intros k i. apply HK.
  - destruct (m_skipUndeclaredSpecies K); [|done].
    by intros [= _ <-].
Qed.

Lemma net_identity_build_step (K : Kinetics) (op : build_op) :
  net_identity K -> net_identity (build_step K op).
Proof.
  intros HK. destruct op as [p|r resize|]; simpl.
  - by apply net_identity_addThermo.
  - destruct (addReaction K r resize) as [[added K']| |] eqn:E;
      [by eapply net_identity_addReaction|done|done].
  - apply net_identity_resizeReactions.
Qed.

(** *** The matrices carry the coefficients of the reactions *)

Lemma add_triplet_other (E : gmap (Z * Z) double) (t : triplet) (p : Z * Z) :
  position t ≠ p -> add_triplet E t !! p = E !! p.
Proof.
  intros Hp. unfold add_triplet.
  destruct (E !! position t); by rewrite lookup_insert_ne.
Qed.

Lemma add_triplet_first (E : gmap (Z * Z) double) (k i : Z) (v : double) :
  E !! (k, i) = None -> add_triplet E (k, i, v) !! (k, i) = Some v.
Proof.
  intros HE. unfold add_triplet, position. cbn [fst snd].
  rewrite HE. apply lookup_insert_eq.
Qed.

Lemma fold_add_triplet_fresh (ts : list triplet) (E : gmap (Z * Z) double) (p : Z * Z) :
  p ∉ position <$> ts -> fold_left add_triplet ts E !! p = E !! p.
Proof.
  revert E. induction ts as [|t ts IH]; intros E Hp; [done|].
  rewrite fmap_cons, not_elem_of_cons in Hp. destruct Hp as [Hpt Hp].
  simpl. rewrite IH by done. by apply add_triplet_other.
Qed.

Lemma fold_add_triplet_lookup (ts : list triplet) (E : gmap (Z * Z) double)
  (k i : Z) (v : double) :
  NoDup (position <$> ts) ->
  (k, i, v) ∈ ts ->
  E !! (k, i) = None ->
  fold_left add_triplet ts E !! (k, i) = Some v.
Proof.
  revert E. induction ts as [|t ts IH]; intros E Hnd Hin HE.
  - by apply elem_of_nil in Hin.
  - rewrite fmap_cons in Hnd. apply NoDup_cons in Hnd as [Ht Hnd].
    apply elem_of_cons in Hin as [<-|Hin]; cbn [fold_left].
    + rewrite fold_add_triplet_fresh by done. by apply add_triplet_first.
    + apply IH; [done|done|].
      rewrite add_triplet_other; [done|].
      intros Hp. apply Ht. rewrite Hp.
      by apply (list_elem_of_fmap_2 position _ (k, i, v)).
Qed.

Lemma elem_of_column_triplets (j : Z) (side : gmap Z double) (k i : Z) (v : double) :
  (k, i, v) ∈ column_triplets j side <-> i = j /\ side !! k = Some v.
Proof.
  unfold column_triplets. rewrite list_elem_of_fmap. split.
  - intros ([k' v'] & [= -> -> ->] & Hin). simpl.
    split; [done|]. by apply elem_of_map_to_list.
  - intros [-> Hk]. exists (k, v). split; [done|]. by apply elem_of_map_to_list.
Qed.

Lemma positions_column_triplets (j : Z) (side : gmap Z double) :
  position <$> column_triplets j side = (λ k, (k, j)) <$> (map_to_list side).*1.
Proof.
  unfold column_triplets. rewrite <- !list_fmap_compose. by apply list_fmap_ext.
Qed.

Lemma side_triplets_snoc (side : Reaction -> gmap Z double) (rs : list Reaction)
  (r : Reaction) :
  side_triplets side (rs ++ [r]) =
  (side_triplets side rs ++ column_triplets (Z.of_nat (length rs)) (side r))%list.
Proof.
  unfold side_triplets. rewrite imap_app, concat_app. simpl.
  by rewrite Nat.add_0_r, app_nil_r.
Qed.

Lemma elem_of_side_triplets (side : Reaction -> gmap Z double) (rs : list Reaction)
  (k i : Z) (v : double) :
  (k, i, v) ∈ side_triplets side rs <->
  exists (n : nat) r, i = Z.of_nat n /\ rs !! n = Some r /\ side r !! k = Some v.
Proof.
  induction rs as [|r rs IH] using rev_ind.
  - split; [intros H; by apply elem_of_nil in H | by intros (n & r & _ & ? & _)].
  - rewrite side_triplets_snoc, elem_of_app, IH, elem_of_column_triplets. split.
    + intros [(n & r' & -> & Hn & Hv) | [-> Hv]].
      * exists n, r'. split; [done|]. split; [|done]. by apply lookup_app_l_Some.
      * exists (length rs), r. split; [done|]. split; [|done].
        by rewrite lookup_app_r, Nat.sub_diag.
    + intros (n & r' & -> & Hn & Hv).
      apply lookup_snoc_Some in Hn as [[Hlt Hn] | [-> ->]].
      * left. by exists n, r'.
      * right. done.
Qed.

Lemma NoDup_positions_side (side : Reaction -> gmap Z double) (rs : list Reaction) :
  NoDup (position <$> side_triplets side rs).
Proof.
  induction rs as [|r rs IH] using rev_ind; [apply NoDup_nil_2|].
  rewrite side_triplets_snoc, fmap_app. apply NoDup_app.
  split; [done|]. split.
  - intros p Hp Hp'.
    apply list_elem_of_fmap in Hp as ([[k i] v] & -> & Hin).
    apply elem_of_side_triplets in Hin as (n & r' & -> & Hn & _).
    apply lookup_lt_Some in Hn.
    rewrite positions_column_triplets in Hp'.
    apply list_elem_of_fmap in Hp' as (k' & [= _ Hcol] & _). lia.
  - rewrite positions_column_triplets. apply NoDup_fmap_2.
    + intros k1 k2 [= ->]. done.
    + apply NoDup_fst_map_to_list.
Qed.

Lemma matrix_of_side (side : Reaction -> gmap Z double) (rs : list Reaction)
  (n : nat) (r : Reaction) (k : Z) :
  rs !! n = Some r ->
  setFromTriplets (side_triplets side rs) !! (k, Z.of_nat n) = side r !! k.
Proof.
  intros Hn. unfold setFromTriplets.
  destruct (side r !! k) as [v|] eqn:Hv.
  - apply fold_add_triplet_lookup; [apply NoDup_positions_side| |done].
    apply elem_of_side_triplets. by exists n, r.
  - rewrite fold_add_triplet_fresh; [done|].
    intros Hp. apply list_elem_of_fmap in Hp as ([[k' i'] v'] & [= <- <-] & Hin).
    apply elem_of_side_triplets in Hin as (n' & r' & Hnn & Hn' & Hv').
    apply Nat2Z.inj in Hnn as <-. congruence.
Qed.

Lemma coeffs_recorded_build_step (K : Kinetics) (op : build_op) :
  coeffs_recorded K -> coeffs_recorded (build_step K op).
Proof.
  intros [HR HP]. destruct op as [p|r resize|]; simpl; [done| |done].
  unfold addReaction.
  destruct (declared K (reactants r) && declared K (products r));
    [|by destruct (m_skipUndeclaredSpecies K)].
  destruct resize; (split; simpl; rewrite side_triplets_snoc; unfold nReactions, vec_size;
    [by rewrite HR | by rewrite HP]).
Qed.

Lemma coeffs_recorded_build (ops : list build_op) : coeffs_recorded (build ops).
Proof.
  unfold build.
  assert (Hrun : forall K, coeffs_recorded K ->
                           coeffs_recorded (fold_left build_step ops K)).
  { induction ops as [|op ops' IH]; intros K HK; [done|].
    simpl. apply IH. by apply coeffs_recorded_build_step. }
  by apply Hrun.
Qed.

(** After a resize pass the entries of the three matrices for reaction
    [n] are the coefficients of that reaction: its product coefficient,
    its reactant coefficient, and their difference. *)
Lemma resized_coefficients (ops : list build_op) (n : nat) (r : Reaction) (k : Z) :
  m_reactions (build ops) !! n = Some r ->
  let K := resizeReactions (build ops) in
  productStoichCoeff K k (Z.of_nat n) = default 0%float (products r !! k) /\
  reactantStoichCoeff K k (Z.of_nat n) = default 0%float (reactants r !! k) /\
  netCoefficient K k (Z.of_nat n) =
    (default 0 (products r !! k) - default 0 (reactants r !! k))%float.
Proof.
  intros Hn K. destruct (coeffs_recorded_build ops) as [HR HP].
  assert (Hp : productStoichCoeff K k (Z.of_nat n) = default 0%float (products r !! k)).
  { unfold productStoichCoeff, productStoichCoeffs, stoichCoeffs, coeff. simpl.
    by rewrite HP, (matrix_of_side products _ n r k Hn). }
  assert (Hr : reactantStoichCoeff K k (Z.of_nat n) = default 0%float (reactants r !! k)).
  { unfold reactantStoichCoeff, reactantStoichCoeffs, stoichCoeffs, coeff. simpl.
    by rewrite HR, (matrix_of_side reactants _ n r k Hn). }
  split; [done|]. split; [done|].
  rewrite <- Hp, <- Hr. apply net_identity_resizeReactions.
Qed.

(** C1: after every sequence of [addThermo], [addReaction] (with or
    without the resize pass) and [resizeReactions] calls on a fresh
    manager, for every species [k] and reaction [i] the net
    stoichiometric coefficient equals the product coefficient minus the
    reactant coefficient, as doubles; and once the reactions are resized
    the net coefficient of a reaction of the mechanism is the difference
    of that reaction's own product and reactant coefficients. *)
Theorem net_is_product_minus_reactant (ops : list build_op) (k i : Z) :
  netCoefficient (build ops) k i =
    (productStoichCoeff (build ops) k i - reactantStoichCoeff (build ops) k i)%float /\
  forall (n : nat) (r : Reaction),
    m_reactions (build ops) !! n = Some r ->
    netCoefficient (resizeReactions (build ops)) k (Z.of_nat n) =
      (default 0 (products r !! k) - default 0 (reactants r !! k))%float.
Proof.
  split.
  - unfold build.
    assert (Hrun : forall K, net_identity K -> net_identity (fold_left build_step ops K)).
    { induction ops as [|op ops' IH]; intros K HK; [done|].
      simpl. apply IH. by apply net_identity_build_step. }
    apply (Hrun Kinetics_default net_identity_default).
  - intros n r Hn. by destruct (resized_coefficients ops n r k Hn) as (_ & _ & Hnet).
Qed.

(** The statement at the small mechanism, species 0 and reaction 1. *)
Lemma net_is_product_minus_reactant_witness :
  netCoefficient (build small_mechanism) 0 1 =
    (productStoichCoeff (build small_mechanism) 0 1 -
     reactantStoichCoeff (build small_mechanism) 0 1)%float /\
  netCoefficient (resizeReactions (build small_mechanism)) 0 (Z.of_nat 1) =
    (default 0 (products two_to_one !! 0%Z) -
     default 0 (reactants two_to_one !! 0%Z))%float.
Proof.
  destruct (net_is_product_minus_reactant small_mechanism 0 1) as [Hid Hrxn].
  split; [exact Hid | exact (Hrxn 1%nat two_to_one eq_refl)].
Defined.

(** On the small mechanism the second reaction, added with the resize
    pass, has net coefficients [-2], [1], [0] for the three species. *)
Example small_mechanism_net :
  let K := build small_mechanism in
  (netCoefficient K 0 1, netCoefficient K 1 1, netCoefficient K 2 1) =
    ((-2)%float, 1%float, 0%float) /\
  (productStoichCoeff K 1 1, reactantStoichCoeff K 0 1) = (1%float, 2%float).
Proof. by vm_compute. Qed.

(** ** Duplicate stoichiometries *)














(** ** Surfaces of a reactor *)

Section SurfaceProperties.

Context {ReactorSurface : Type}.
Context (setReactor : ptr -> ReactorSurface -> ReactorSurface).

Import ReactorBase.

Local Abbreviation addSurface := (ReactorBase.addSurface setReactor).
Local Abbreviation addSurfaces := (ReactorBase.addSurfaces setReactor).

Lemma addSurface_present (st : state ReactorSurface) (surf : ptr) :
  surf ∈ m_surfaces st -> addSurface st surf = Returns st.
Proof. intros Hin. unfold ReactorBase.addSurface. by rewrite bool_decide_eq_true_2. Qed.

Lemma addSurface_elem (st st' : state ReactorSurface) (surf : ptr) :
  addSurface st surf = Returns st' -> surf ∈ m_surfaces st'.
Proof.
  unfold ReactorBase.addSurface. case_bool_decide as Hin.
  - by intros [= <-].
  - destruct (surfaces st !! surf); [|done].
    intros [= <-]. simpl. apply elem_of_app. right. by left.
Qed.

Lemma addSurface_NoDup (st st' : state ReactorSurface) (surf : ptr) :
  NoDup (m_surfaces st) -> addSurface st surf = Returns st' -> NoDup (m_surfaces st').
Proof.
  intros Hnd. unfold ReactorBase.addSurface. case_bool_decide as Hin.
  - by intros [= <-].
  - destruct (surfaces st !! surf); [|done].
    intros [= <-]. simpl. apply NoDup_app. split; [done|].
    split; [|apply NoDup_singleton].
    intros x Hx Hx'. apply list_elem_of_singleton in Hx' as ->. done.
Qed.

Lemma addSurface_dom (st st' : state ReactorSurface) (surf : ptr) :
  addSurface st surf = Returns st' -> dom (surfaces st') = dom (surfaces st).
Proof.
  unfold ReactorBase.addSurface. case_bool_decide as Hin.
  - by intros [= <-].
  - destruct (surfaces st !! surf) as [obj|] eqn:E; [|done].
    intros [= <-]. simpl. rewrite dom_insert_L.
    assert (Hs : surf ∈ dom (surfaces st)) by (apply elem_of_dom; eauto).
    apply set_eq. intros x. rewrite elem_of_union, elem_of_singleton.
    split; [intros [->|Hx]; done | by right].
Qed.

Lemma addSurface_total (st : state ReactorSurface) (surf : ptr) :
  surf ∈ dom (surfaces st) -> exists st', addSurface st surf = Returns st'.
Proof.
  intros Hs. apply elem_of_dom in Hs as [obj Hobj].
  unfold ReactorBase.addSurface. case_bool_decide; [by eexists|].
  rewrite Hobj. by eexists.
Qed.

Lemma addSurfaces_NoDup (l : list ptr) (st st' : state ReactorSurface) :
  NoDup (m_surfaces st) -> addSurfaces st l = Returns st' -> NoDup (m_surfaces st').
Proof.
  revert st. induction l as [|surf l IH]; intros st Hnd; simpl.
  - by intros [= <-].
  - destruct (addSurface st surf) as [st1| |] eqn:E; simpl; [|done|done].
    apply IH. by eapply addSurface_NoDup.
Qed.

Lemma addSurfaces_total (l : list ptr) (st : state ReactorSurface) :
  (forall s, s ∈ l -> s ∈ dom (surfaces st)) ->
  exists st', addSurfaces st l = Returns st'.
Proof.
  revert st. induction l as [|surf l IH]; intros st Hl; simpl; [by eexists|].
  destruct (addSurface_total st surf) as [st1 E]; [apply Hl; by left|].
  rewrite E. simpl. apply IH. intros s Hs.
  rewrite (addSurface_dom _ _ _ E). apply Hl. by right.
Qed.

(** C9: [addSurface(s)] on a reactor whose surface list already holds
    [s] returns with the reactor (its list included) unchanged; a second
    [addSurface(s)] right after a first changes nothing; and after any
    run of [addSurface] calls on a newly constructed reactor no pointer
    occurs twice in the list, such a run returning whenever the pointers
    refer to live surfaces. *)
Theorem addSurface_idempotent :
  (forall (st : state ReactorSurface) surf,
     surf ∈ m_surfaces st -> addSurface st surf = Returns st) /\
  (forall (st st' : state ReactorSurface) surf,
     addSurface st surf = Returns st' -> addSurface st' surf = Returns st') /\
  (forall addr store l (st : state ReactorSurface),
     addSurfaces (ReactorBase_new addr store) l = Returns st ->
     NoDup (m_surfaces st)) /\
  (forall addr (store : gmap ptr ReactorSurface) l,
     (forall s, s ∈ l -> s ∈ dom store) ->
     exists st, addSurfaces (ReactorBase_new addr store) l = Returns st).
Proof.
  split; [apply addSurface_present|].
  split. { intros st st' surf E. eapply addSurface_present, addSurface_elem, E. }
  split.
  - intros addr store l st E.
    eapply addSurfaces_NoDup; [|exact E]. simpl. apply NoDup_nil_2.
  - intros addr store l Hl. by apply addSurfaces_total.
Qed.

End SurfaceProperties.

(** The statement at a reactor that holds the surface at address 10, and
    at the run that adds the surfaces at 10, 11 and 10 again. *)
Lemma addSurface_idempotent_witness :
  ReactorBase.addSurface set_back_pointer reactor_with_surface 10 =
    Returns reactor_with_surface /\
  exists st,
    ReactorBase.addSurfaces set_back_pointer
      (ReactorBase.ReactorBase_new 1 two_surfaces) [10; 11; 10] = Returns st /\
    NoDup (ReactorBase.m_surfaces st).
Proof.
  destruct (addSurface_idempotent set_back_pointer) as (Hin & _ & Hnodup & Htotal).
  split.
  - apply Hin. by left.
  - destruct (Htotal 1 two_surfaces [10; 11; 10]) as [st E].
    + intros s Hs. unfold two_surfaces.
      rewrite dom_insert_L, dom_singleton_L.
      repeat (apply elem_of_cons in Hs as [-> | Hs]; [set_solver|]).
      by apply elem_of_nil in Hs.
    + exists st. split; [exact E | exact (Hnodup _ _ _ _ E)].
Defined.

(** The surface at address 10 added, then the one at 11, then the one at
    10 again: the list is [10; 11], and the surface at 10 points back to
    the reactor. *)
Example addSurface_twice :
  exists st,
    ReactorBase.addSurfaces set_back_pointer
      (ReactorBase.ReactorBase_new 1 two_surfaces) [10; 11; 10] = Returns st /\
    ReactorBase.m_surfaces st = [10; 11] /\
    ReactorBase.surfaces st !! 10 = Some 1.
Proof. eexists. by vm_compute. Qed.

(** ** Connector factory *)

Section FactoryProperties.

Import ConnectorFactory.

Context (isFlowDevice isWallBase : ConnectorClass -> bool).
Context (unknown_model : string -> exn).
Context (construct : ConnectorClass -> ptr -> ptr -> string -> outcome unit).

Local Abbreviation newConnector :=
  (ConnectorFactory.newConnector unknown_model construct).
Local Abbreviation newFlowDevice :=
  (ConnectorFactory.newFlowDevice isFlowDevice unknown_model construct).
Local Abbreviation newWall :=
  (ConnectorFactory.newWall isWallBase unknown_model construct).

Lemma format1_incompatible (model : string) :
  format1 incompatible_tmpl model =
  "Detected incompatible Connector type '" ++ model ++ "'".
Proof. reflexivity. Qed.

Lemma incompatible_mentions (func model : string) :
  mentions model (CanteraError func (format1 incompatible_tmpl model)) = true.
Proof.
  unfold mentions. cbn [exn_func exn_message].
  rewrite format1_incompatible, is_infix_app. apply orb_true_r.
Qed.

Lemma newFlowDevice_incompatible (model name : string) (c : Connector) :
  newConnector model nullptr nullptr name = Returns (Some c) ->
  isFlowDevice (dyn_class c) = false ->
  newFlowDevice model name =
    Throws (CanteraError "newFlowDevice" (format1 incompatible_tmpl model)).
Proof.
  intros Hc Hk. unfold ConnectorFactory.newFlowDevice.
  rewrite Hc. simpl. by rewrite Hk.
Qed.

Lemma newWall_incompatible (model name : string) (c : Connector) :
  newConnector model nullptr nullptr name = Returns (Some c) ->
  isWallBase (dyn_class c) = false ->
  newWall model name =
    Throws (CanteraError "newWall" (format1 incompatible_tmpl model)).
Proof.
  intros Hc Hk. unfold ConnectorFactory.newWall.
  rewrite Hc. simpl. by rewrite Hk.
Qed.

Lemma newFlowDevice_success (model name : string) (p : option Connector) :
  newFlowDevice model name = Returns p ->
  exists c, p = Some c /\ isFlowDevice (dyn_class c) = true /\
            newConnector model nullptr nullptr name = Returns (Some c).
Proof.
  unfold ConnectorFactory.newFlowDevice.
  destruct (newConnector model nullptr nullptr name) as [[c|]| |]; simpl; try done.
  destruct (isFlowDevice (dyn_class c)) eqn:Hk; [|done].
  intros [= <-]. by exists c.
Qed.

Lemma newWall_success (model name : string) (p : option Connector) :
  newWall model name = Returns p ->
  exists c, p = Some c /\ isWallBase (dyn_class c) = true /\
            newConnector model nullptr nullptr name = Returns (Some c).
Proof.
  unfold ConnectorFactory.newWall.
  destruct (newConnector model nullptr nullptr name) as [[c|]| |]; simpl; try done.
  destruct (isWallBase (dyn_class c)) eqn:Hk; [|done].
  intros [= <-]. by exists c.
Qed.

(** C10: when the connector the factory creates for [model] is not a
    [FlowDevice], [newFlowDevice(model, name)] throws a [CanteraError]
    whose message names [model]; likewise [newWall(model, name)] when
    the connector is not a [WallBase]; a call that returns yields a
    non-null pointer to an object of the requested kind, the one the
    factory created. *)
Theorem newFlowDevice_newWall_checked (model name : string) (c : Connector) :
  newConnector model nullptr nullptr name = Returns (Some c) ->
  (isFlowDevice (dyn_class c) = false ->
     exists e, newFlowDevice model name = Throws e /\
               e = CanteraError "newFlowDevice"
                     ("Detected incompatible Connector type '" ++ model ++ "'") /\
               mentions model e = true) /\
  (isWallBase (dyn_class c) = false ->
     exists e, newWall model name = Throws e /\
               e = CanteraError "newWall"
                     ("Detected incompatible Connector type '" ++ model ++ "'") /\
               mentions model e = true) /\
  (isFlowDevice (dyn_class c) = true -> newFlowDevice model name = Returns (Some c)) /\
  (isWallBase (dyn_class c) = true -> newWall model name = Returns (Some c)) /\
  (forall p, newFlowDevice model name = Returns p ->
     exists d, p = Some d /\ isFlowDevice (dyn_class d) = true) /\
  (forall p, newWall model name = Returns p ->
     exists d, p = Some d /\ isWallBase (dyn_class d) = true).
Proof.
  intros Hc. repeat split.
  - intros Hk. eexists. split; [by eapply newFlowDevice_incompatible|].
    split; [done|]. apply incompatible_mentions.
  - intros Hk. eexists. split; [by eapply newWall_incompatible|].
    split; [done|]. apply incompatible_mentions.
  - intros Hk. unfold ConnectorFactory.newFlowDevice. rewrite Hc. simpl. by rewrite Hk.
  - intros Hk. unfold ConnectorFactory.newWall. rewrite Hc. simpl. by rewrite Hk.
  - intros p Hp. destruct (newFlowDevice_success _ _ _ Hp) as (d & ? & ? & _). eauto.
  - intros p Hp. destruct (newWall_success _ _ _ Hp) as (d & ? & ? & _). eauto.
Qed.

End FactoryProperties.

(** The statement with the three flow controllers as flow devices and
    [Wall] as a wall: model "Wall" is refused by [newFlowDevice] and
    accepted by [newWall]. *)
Lemma newFlowDevice_newWall_checked_witness :
  ConnectorFactory.newFlowDevice ConnectorFactory.flow_devices no_such_type
    construct_returns "Wall" "w" =
    Throws (CanteraError "newFlowDevice" "Detected incompatible Connector type 'Wall'") /\
  ConnectorFactory.newWall ConnectorFactory.walls no_such_type
    construct_returns "Wall" "w" =
    Returns (Some wall_w).
Proof.
  destruct (newFlowDevice_newWall_checked
              ConnectorFactory.flow_devices ConnectorFactory.walls no_such_type
              construct_returns
              "Wall" "w" wall_w eq_refl) as (Hflow & _ & _ & Hwall & _).
  destruct (Hflow eq_refl) as (e & He & -> & _).
  split; [exact He | exact (Hwall eq_refl)].
Defined.

(** Model "Valve" is refused by [newWall]; "MassFlowController" is
    accepted by [newFlowDevice]; a model that was never registered fails
    in the factory. *)
Example factory_values :
  ConnectorFactory.newWall ConnectorFactory.walls no_such_type
    construct_returns "Valve" "v" =
    Throws (CanteraError "newWall" "Detected incompatible Connector type 'Valve'") /\
  returns (ConnectorFactory.newFlowDevice ConnectorFactory.flow_devices no_such_type
             construct_returns "MassFlowController" "m") = true /\
  ConnectorFactory.newFlowDevice ConnectorFactory.flow_devices no_such_type
    construct_returns "Orifice" "o" =
    Throws (no_such_type "Orifice").
Proof. by vm_compute. Qed.


(** * Further properties of the code *)

(** ** Multipliers *)

Lemma vec_index_insert_eq {A : Type} (v : list A) (i : Z) (a : A) :
  0 <= i < vec_size v -> vec_index (<[Z.to_nat i := a]> v) i = Returns a.
Proof.
  intros [Hi0 Hi]. unfold vec_size in Hi. unfold vec_index.
  rewrite decide_True by done. rewrite list_lookup_insert_eq by lia. done.
Qed.

Lemma vec_index_insert_ne {A : Type} (v : list A) (i j : Z) (a : A) :
  0 <= i -> i ≠ j -> vec_index (<[Z.to_nat i := a]> v) j = vec_index v j.
Proof.
  intros Hi Hij. unfold vec_index. case_decide; [|done].
  rewrite list_lookup_insert_ne by lia. done.
Qed.

Lemma vec_index_defined {A : Type} (v : list A) (i : Z) :
  0 <= i < vec_size v -> exists a, vec_index v i = Returns a.
Proof.
  intros [Hi0 Hi]. unfold vec_size in Hi. unfold vec_index.
  rewrite decide_True by done.
  destruct (lookup_lt_is_Some_2 v (Z.to_nat i)) as [a ->]; [lia|]. by exists a.
Qed.

Lemma vec_index_undefined {A : Type} (v : list A) (i : Z) :
  ~ (0 <= i < vec_size v) -> vec_index v i = Undefined.
Proof.
  intros Hi. unfold vec_size in Hi. unfold vec_index. case_decide; [|done].
  rewrite lookup_ge_None_2; [done|lia].
Qed.

Lemma setMultiplier_Returns (K : Kinetics) (i : Z) (f : double) :
  0 <= i < vec_size (m_perturb K) ->
  setMultiplier K i f = Returns (set_m_perturb (<[Z.to_nat i := f]> (m_perturb K)) K).
Proof.
  intros Hi. unfold setMultiplier.
  destruct (vec_index_defined _ _ Hi) as [x ->]. done.
Qed.

(** X1: [setMultiplier(i, f)] returns exactly for the indices
    [0 <= i < m_perturb.size()]; outside them the unchecked assignment is
    undefined behaviour, it neither throws nor extends the vector. *)
Theorem setMultiplier_defined_iff (K : Kinetics) (i : Z) (f : double) :
  (returns (setMultiplier K i f) = true <-> 0 <= i < vec_size (m_perturb K)) /\
  (~ (0 <= i < vec_size (m_perturb K)) -> setMultiplier K i f = Undefined) /\
  throws (setMultiplier K i f) = false /\
  (forall K', setMultiplier K i f = Returns K' ->
     vec_size (m_perturb K') = vec_size (m_perturb K)).
Proof.
  destruct (decide (0 <= i < vec_size (m_perturb K))) as [Hi|Hi].
  - rewrite (setMultiplier_Returns K i f Hi).
    split; [done|]. split; [done|]. split; [done|].
    intros K' [= <-]. unfold vec_size. simpl. by rewrite length_insert.
  - unfold setMultiplier. rewrite (vec_index_undefined _ _ Hi). simpl.
    split; [split; [discriminate | done]|]. done.
Qed.

(** X2: for a valid index, [setMultiplier(i, f)] changes the multiplier
    of reaction [i] only: every other multiplier reads as before, and so
    do the reactions, the phases, the phase-name lookup, the
    reversibility of each reaction, the species offsets and the
    stoichiometric matrices. *)
Theorem setMultiplier_frame (K K' : Kinetics) (i : Z) (f : double) :
  setMultiplier K i f = Returns K' ->
  multiplier K' i = Returns f /\
  (forall j, j ≠ i -> multiplier K' j = multiplier K j) /\
  nReactions K' = nReactions K /\
  nPhases K' = nPhases K /\
  nTotalSpecies K' = nTotalSpecies K /\
  (forall ph, phaseIndex K' ph = phaseIndex K ph) /\
  (forall n, phase K' n = phase K n) /\
  (forall j, isReversible K' j = isReversible K j) /\
  (forall k n, kineticsSpeciesIndex K' k n = kineticsSpeciesIndex K k n) /\
  reactantStoichCoeffs K' = reactantStoichCoeffs K /\
  productStoichCoeffs K' = productStoichCoeffs K /\
  revProductStoichCoeffs K' = revProductStoichCoeffs K.
Proof.
  intros E.
  assert (Hi : 0 <= i < vec_size (m_perturb K)).
  { apply (setMultiplier_defined_iff K i f). by rewrite E. }
  rewrite (setMultiplier_Returns K i f Hi) in E. injection E as <-.
  split; [by apply vec_index_insert_eq|].
  split; [intros j Hj; apply vec_index_insert_ne; [lia|done]|].
  repeat split.
Qed.

(** X3: two [setMultiplier] calls on the same reaction leave the later
    value; on different reactions they commute; and writing back the
    value [multiplier(i)] returned leaves the manager exactly as it was. *)
Theorem setMultiplier_compose (K : Kinetics) (i j : Z) (f g : double) :
  0 <= i < vec_size (m_perturb K) ->
  0 <= j < vec_size (m_perturb K) ->
  (K1 ← setMultiplier K i f; setMultiplier K1 i g) = setMultiplier K i g /\
  (i ≠ j ->
     (K1 ← setMultiplier K i f; setMultiplier K1 j g) =
     (K1 ← setMultiplier K j g; setMultiplier K1 i f)) /\
  (multiplier K i = Returns f -> setMultiplier K i f = Returns K).
Proof.
  intros Hi Hj.
  assert (Hsz : forall n x, vec_size (<[n := x]> (m_perturb K)) = vec_size (m_perturb K)).
  { intros n x. unfold vec_size. by rewrite length_insert. }
  split; [|split].
  - rewrite (setMultiplier_Returns K i f Hi), (setMultiplier_Returns K i g Hi).
    cbn [mbind outcome_bind].
    rewrite setMultiplier_Returns by (simpl; by rewrite Hsz).
    unfold set_m_perturb; simpl. by rewrite list_insert_insert_eq.
  - intros Hij.
    rewrite (setMultiplier_Returns K i f Hi), (setMultiplier_Returns K j g Hj).
    cbn [mbind outcome_bind].
    rewrite !setMultiplier_Returns by (simpl; by rewrite Hsz).
    unfold set_m_perturb; simpl. rewrite list_insert_insert_ne by lia. done.
  - intros Hm. rewrite (setMultiplier_Returns K i f Hi).
    apply vec_index_Returns in Hm as [_ Hm].
    rewrite list_insert_id by done. by destruct K.
Qed.

(** The statement at [cached_manager], reactions 0 and 1. *)
Lemma setMultiplier_frame_witness :
  multiplier (multiplier_set cached_manager) 0 = Returns 0%float /\
  multiplier (multiplier_set cached_manager) 1 = multiplier cached_manager 1.
Proof.
  destruct (setMultiplier_frame cached_manager (multiplier_set cached_manager)
              0 0%float eq_refl) as (H0 & Hother & _).
  split; [exact H0 | apply Hother; lia].
Defined.

Lemma setMultiplier_compose_witness :
  (K1 ← setMultiplier cached_manager 0 2%float; setMultiplier K1 0 3%float) =
    setMultiplier cached_manager 0 3%float /\
  setMultiplier cached_manager 0 1%float = Returns cached_manager.
Proof.
  assert (H : 0 <= 0 < vec_size (m_perturb cached_manager)) by (split; [done|by vm_compute]).
  destruct (setMultiplier_compose cached_manager 0 0 2%float 3%float H H)
    as (Hlast & _ & _).
  destruct (setMultiplier_compose cached_manager 0 0 1%float 1%float H H)
    as (_ & _ & Hback).
  split; [exact Hlast | exact (Hback eq_refl)].
Defined.

(** ** The not-found sentinel of [phaseIndex] *)

(** X4: when the stored positions start with the value 1, as the class
    documents for [m_phaseindex], and are [size_t] values, [phaseIndex]
    returns [npos] for the names that are missing and for no other name,
    and two names with different stored positions get different
    indices.  (A stored position of 0 would also yield [npos].) *)
Theorem phaseIndex_npos_iff (K : Kinetics) (ph : string) :
  (forall name v, m_phaseindex K !! name = Some v -> 1 <= v < size_t_modulus) ->
  (phaseIndex K ph = Returns npos <-> m_phaseindex K !! ph = None) /\
  (forall ph' v v', m_phaseindex K !! ph = Some v -> m_phaseindex K !! ph' = Some v' ->
     v ≠ v' -> phaseIndex K ph ≠ phaseIndex K ph').
Proof.
  intros Hinv.
  assert (Hsome : forall name v, m_phaseindex K !! name = Some v ->
            phaseIndex K name = Returns (v - 1) /\ 0 <= v - 1 < size_t_modulus - 1).
  { intros name v Hv. pose proof (Hinv name v Hv) as Hr.
    unfold phaseIndex, map_at. rewrite Hv. simpl.
    rewrite wrap_small by lia. split; [done|lia]. }
  split.
  - destruct (m_phaseindex K !! ph) as [v|] eqn:Hv.
    + destruct (Hsome ph v Hv) as [-> Hr]. split; [|done].
      intros [= E]. assert (Hn : npos = size_t_modulus - 1) by (by vm_compute).
      rewrite Hn in E. lia.
    + split; [done|]. intros _. unfold phaseIndex. by rewrite Hv.
  - intros ph' v v' Hv Hv' Hne.
    destruct (Hsome ph v Hv) as [-> _]. destruct (Hsome ph' v' Hv') as [-> _].
    intros [= E]. lia.
Qed.

(** The statement at [cached_manager], whose only phase "gas" is stored
    at position 1. *)
Lemma phaseIndex_npos_iff_witness :
  phaseIndex cached_manager "air" = Returns npos <->
  m_phaseindex cached_manager !! "air" = None.
Proof.
  apply (phaseIndex_npos_iff cached_manager "air").
  intros name v Hv. unfold cached_manager in Hv. simpl in Hv.
  apply lookup_singleton_Some in Hv as [_ <-]. by vm_compute.
Defined.

(** A stored position of 0 is not told apart from a missing name. *)
Example phaseIndex_position_zero :
  phaseIndex (set_m_phaseindex {[ "gas" := 0 ]} Kinetics_default) "gas" = Returns npos.
Proof. by vm_compute. Qed.

(** ** The error of an unsupported member identifies the member *)

(** X5: the not-implemented errors of two different members differ,
    whatever the types of the managers they are called on: the function
    named in the error identifies the member that was called. *)
Theorem base_body_identifies_member (ty1 ty2 : string) (op1 op2 : VirtualOp) :
  op1 ≠ op2 ->
  exn_func (base_body ty1 op1) ≠ exn_func (base_body ty2 op2) /\
  call_unsupported ty1 op1 ≠ call_unsupported ty2 op2.
Proof.
  intros Hne.
  assert (Hf : exn_func (base_body ty1 op1) ≠ exn_func (base_body ty2 op2)).
  { intros H. apply Hne. revert H.
    destruct op1, op2; first [reflexivity | intros H; discriminate H]. }
  split; [done|]. intros [= E]. apply Hf. by rewrite E.
Qed.

(** The statement for [getDeltaGibbs] on a manager of type "bulk" and
    [getDeltaEnthalpy] on one of type "surface". *)
Lemma base_body_identifies_member_witness :
  exn_func (base_body "bulk" op_getDeltaGibbs) ≠
    exn_func (base_body "surface" op_getDeltaEnthalpy) /\
  call_unsupported "bulk" op_getDeltaGibbs ≠
    call_unsupported "surface" op_getDeltaEnthalpy.
Proof.
  apply (base_body_identifies_member "bulk" "surface" op_getDeltaGibbs op_getDeltaEnthalpy).
  discriminate.
Defined.

(** ** Reaction-added callbacks *)

Section CallbackProperties.

Import ReactionCallbacks.

Context {callback : Type}.

Implicit Types (m : gmap ptr callback) (id : ptr) (cb : callback).

(** X6: removing the callback of an identifier that was never registered
    changes nothing; registering under a fresh identifier and removing it
    again restores the callbacks; a second registration under the same
    identifier replaces the first; and neither member touches the
    callback of any other identifier. *)
Theorem reactionAddedCallback_round_trip m id cb :
  (m !! id = None -> removeReactionAddedCallback m id = m) /\
  (m !! id = None ->
     removeReactionAddedCallback (registerReactionAddedCallback m id cb) id = m) /\
  (forall cb',
     registerReactionAddedCallback (registerReactionAddedCallback m id cb') id cb =
     registerReactionAddedCallback m id cb) /\
  registerReactionAddedCallback m id cb !! id = Some cb /\
  removeReactionAddedCallback m id !! id = None /\
  (forall id', id' ≠ id ->
     registerReactionAddedCallback m id cb !! id' = m !! id' /\
     removeReactionAddedCallback m id !! id' = m !! id').
Proof.
  unfold registerReactionAddedCallback, removeReactionAddedCallback.
  split; [apply delete_id|].
  split; [intros Hid; by rewrite delete_insert_id|].
  split; [intros cb'; apply insert_insert_eq|].
  split; [apply lookup_insert_eq|].
  split; [apply lookup_delete_eq|].
  intros id' Hne. by rewrite lookup_insert_ne, lookup_delete_ne.
Qed.

End CallbackProperties.

(** The statement for an empty callback map and the identifier 5. *)
Lemma reactionAddedCallback_round_trip_witness :
  ReactionCallbacks.removeReactionAddedCallback
    (ReactionCallbacks.registerReactionAddedCallback (∅ : gmap ptr nat) 5 7%nat) 5 = ∅.
Proof.
  destruct (reactionAddedCallback_round_trip (∅ : gmap ptr nat) 5 7%nat)
    as (_ & Hround & _).
  exact (Hround (lookup_empty 5)).
Defined.

(** ** Surfaces of a reactor, continued *)

Section MoreSurfaceProperties.

Context {ReactorSurface : Type}.
Context (setReactor : ptr -> ReactorSurface -> ReactorSurface).

Import ReactorBase.

Local Abbreviation addSurface := (ReactorBase.addSurface setReactor).
Local Abbreviation addSurfaces := (ReactorBase.addSurfaces setReactor).

Lemma addSurface_step (st st' : state ReactorSurface) (surf : ptr) :
  addSurface st surf = Returns st' ->
  this_ st' = this_ st /\
  ((surf ∈ m_surfaces st /\ st' = st) \/
   ((surf ∉ m_surfaces st) /\ m_surfaces st' = (m_surfaces st ++ [surf])%list /\
    exists obj, surfaces st !! surf = Some obj /\
                surfaces st' = <[surf := setReactor (this_ st) obj]> (surfaces st))).
Proof.
  unfold ReactorBase.addSurface. case_bool_decide as Hin.
  - intros [= <-]. split; [done|]. by left.
  - destruct (surfaces st !! surf) as [obj|] eqn:E; [|done].
    intros [= <-]. split; [done|]. right. split; [done|]. split; [done|]. by exists obj.
Qed.

(** X7: a run of [addSurface] calls only appends: the surfaces the
    reactor already had keep their positions, so [surface(n)] keeps
    returning the same pointer, and afterwards the list holds exactly the
    pointers it held before and the pointers that were passed. *)
Theorem addSurfaces_appends (st st' : state ReactorSurface) (l : list ptr) :
  addSurfaces st l = Returns st' ->
  m_surfaces st `prefix_of` m_surfaces st' /\
  (forall s, s ∈ m_surfaces st' <-> s ∈ m_surfaces st \/ s ∈ l) /\
  (forall n s, surface st n = Returns s -> surface st' n = Returns s) /\
  this_ st' = this_ st.
Proof.
  revert st. induction l as [|x l IH]; intros st E; simpl in E.
  - injection E as <-. split; [done|]. split; [|done].
    intros s. split; [by left|]. intros [H|H]; [done|by apply elem_of_nil in H].
  - destruct (addSurface st x) as [st1| |] eqn:E1; simpl in E; [|done|done].
    destruct (IH st1 E) as (Hpre & Hmem & Hidx & Hthis).
    destruct (addSurface_step st st1 x E1) as (Hthis1 & Hstep).
    assert (Hpre1 : m_surfaces st `prefix_of` m_surfaces st1).
    { destruct Hstep as [[_ ->]|(_ & -> & _)]; [done|]. by apply prefix_app_r. }
    assert (Hmem1 : forall s, s ∈ m_surfaces st1 <-> s ∈ m_surfaces st \/ s = x).
    { intros s. destruct Hstep as [[Hin ->]|(_ & -> & _)].
      - split; [by left|]. by intros [H| ->].
      - rewrite elem_of_app, list_elem_of_singleton. done. }
    split; [by etrans|]. split; [|split].
    + intros s. rewrite Hmem, Hmem1, elem_of_cons. tauto.
    + intros n s Hn. apply Hidx.
      apply vec_index_Returns in Hn as [Hn0 Hn]. apply vec_index_Returns.
      split; [done|]. destruct Hpre1 as [k ->]. by apply lookup_app_l_Some.
    + congruence.
Qed.

(** X8: after a run of [addSurface] calls on a reactor, every surface
    that was passed and was not in the list before has had [setReactor]
    called on it with this reactor exactly once, and every other surface
    object is as it was. *)
Theorem addSurfaces_back_pointers (st st' : state ReactorSurface) (l : list ptr) :
  addSurfaces st l = Returns st' ->
  forall s,
    surfaces st' !! s =
    if decide (s ∈ l /\ s ∉ m_surfaces st)
    then setReactor (this_ st) <$> surfaces st !! s
    else surfaces st !! s.
Proof.
  revert st. induction l as [|x l IH]; intros st E s; simpl in E.
  - injection E as <-. rewrite decide_False; [done|].
    intros [H _]. by apply elem_of_nil in H.
  - destruct (addSurface st x) as [st1| |] eqn:E1; simpl in E; [|done|done].
    rewrite (IH st1 E s).
    destruct (addSurface_step st st1 x E1) as (Hthis1 & [[Hin ->]|(Hout & Hl & obj & Hobj & Hs)]).
    + destruct (decide (s ∈ l ∧ s ∉ m_surfaces st)) as [[H1 H2]|Hn].
      * rewrite decide_True; [done|]. split; [by right|done].
      * rewrite decide_False; [done|]. intros [H1 H2].
        apply elem_of_cons in H1 as [->|H1]; [done|]. by apply Hn.
    + rewrite Hthis1, Hl, Hs. destruct (decide (s = x)) as [->|Hsx].
      * rewrite decide_False by (intros [_ H]; apply H, elem_of_app; right; by left).
        rewrite decide_True by (split; [by left|done]).
        by rewrite lookup_insert_eq, Hobj.
      * rewrite lookup_insert_ne by done.
        destruct (decide (s ∈ l ∧ s ∉ m_surfaces st)) as [[H1 H2]|Hn].
        -- rewrite !decide_True; [done|by split; [right|]|].
           split; [done|]. rewrite elem_of_app, list_elem_of_singleton. tauto.
        -- rewrite !decide_False; [done| |].
           ++ intros [H1 H2]. apply elem_of_cons in H1 as [->|H1]; [done|]. by apply Hn.
           ++ intros [H1 H2]. apply Hn. split; [done|].
              intros H. apply H2, elem_of_app. by left.
Qed.

End MoreSurfaceProperties.

(** The statements at the reactor that holds the surface at address 10,
    for the run that adds the surfaces at 11 and 10. *)
Lemma addSurfaces_appends_witness :
  ReactorBase.surface surfaces_added 0 = Returns 10 /\
  (11 ∈ ReactorBase.m_surfaces surfaces_added <->
   11 ∈ ReactorBase.m_surfaces reactor_with_surface \/ 11 ∈ [11; 10]).
Proof.
  destruct (addSurfaces_appends set_back_pointer reactor_with_surface surfaces_added
              [11; 10] eq_refl) as (_ & Hmem & Hidx & _).
  split; [exact (Hidx 0 10 eq_refl) | exact (Hmem 11)].
Defined.

Lemma addSurfaces_back_pointers_witness :
  ReactorBase.surfaces surfaces_added !! 11 =
    (if decide (11 ∈ [11; 10] /\ 11 ∉ ReactorBase.m_surfaces reactor_with_surface)
     then set_back_pointer (ReactorBase.this_ reactor_with_surface) <$>
            ReactorBase.surfaces reactor_with_surface !! 11
     else ReactorBase.surfaces reactor_with_surface !! 11).
Proof.
  exact (addSurfaces_back_pointers set_back_pointer reactor_with_surface surfaces_added
           [11; 10] eq_refl 11).
Defined.

(** ** Inlets, outlets, walls and the network of a reactor *)

Section LinkProperties.

Import ReactorLinks.

Lemma link_fold (ops : list link_op) (st : links) :
  let st' := fold_left link_step ops st in
  m_inlet st' = (m_inlet st ++ inlets_of ops)%list /\
  m_outlet st' = (m_outlet st ++ outlets_of ops)%list /\
  m_wall st' = (m_wall st ++ (walls_of ops).*1)%list /\
  m_lr st' = (m_lr st ++ (lr_flag <$> (walls_of ops).*2))%list /\
  m_net st' =
    default (m_net st)
      (last (omap (λ op, match op with SetNetwork n => Some n | _ => None end) ops)).
Proof.
  revert st. induction ops as [|op ops IH]; intros st; simpl.
  - by rewrite !app_nil_r.
  - destruct (IH (link_step st op)) as (Hi & Ho & Hw & Hl & Hn).
    rewrite Hi, Ho, Hw, Hl, Hn.
    destruct op as [x|x|w lr|net]; simpl; rewrite <- ?app_assoc; try done.
    repeat split. rewrite last_cons. by destruct (last _).
Qed.

(** X9: on a newly constructed reactor, whatever the interleaving of
    [addInlet], [addOutlet], [addWall] and [setNetwork] calls, each list
    holds exactly what its own member was passed, in call order and with
    repetitions kept; the side flags stay in step with the walls and are
    0 for [lr == 0] and 1 for every other [lr]; and [wall(n)] returns the
    wall of the [n]-th [addWall] call. *)
Theorem links_record_calls (ops : list link_op) :
  m_inlet (link_run ops) = inlets_of ops /\
  m_outlet (link_run ops) = outlets_of ops /\
  m_wall (link_run ops) = (walls_of ops).*1 /\
  m_lr (link_run ops) = lr_flag <$> (walls_of ops).*2 /\
  length (m_lr (link_run ops)) = length (m_wall (link_run ops)) /\
  (forall x, x ∈ m_lr (link_run ops) -> x = 0 \/ x = 1) /\
  (forall (n : nat) w lr, walls_of ops !! n = Some (w, lr) ->
     wall (link_run ops) (Z.of_nat n) = Returns w /\
     m_lr (link_run ops) !! n = Some (lr_flag lr)) /\
  wall (link_run ops) (Z.of_nat (length (walls_of ops))) = Undefined.
Proof.
  destruct (link_fold ops links_new) as (Hi & Ho & Hw & Hl & _).
  simpl in Hi, Ho, Hw, Hl. fold (link_run ops) in Hi, Ho, Hw, Hl.
  split; [done|]. split; [done|]. split; [done|]. split; [done|].
  split; [by rewrite Hl, Hw, !length_fmap|].
  split.
  { intros x Hx. rewrite Hl in Hx.
    apply list_elem_of_fmap in Hx as (lr & -> & _). unfold lr_flag. case_decide; lia. }
  split.
  - intros n w lr Hn. split.
    + unfold wall, vec_index. rewrite decide_True by lia.
      rewrite Nat2Z.id, Hw, list_lookup_fmap, Hn. done.
    + rewrite Hl, !list_lookup_fmap, Hn. done.
  - unfold wall. rewrite Hw.
    replace (length (walls_of ops)) with (length (walls_of ops).*1)
      by apply length_fmap.
    apply vec_index_size.
Qed.

(** X10: [network()] on a reactor throws the [CanteraError] "Reactor is
    not part of a ReactorNet" exactly when no [setNetwork] call was made
    or the last one passed a null pointer; otherwise it returns the
    network of the last [setNetwork] call.  Adding inlets, outlets and
    walls never changes the outcome. *)
Theorem network_after_calls (ops : list link_op) :
  network (link_run ops) =
    (if decide (last_network ops = nullptr)
     then Throws (CanteraError "ReactorBase::network"
                    "Reactor is not part of a ReactorNet")
     else Returns (last_network ops)) /\
  (forall net, network (link_run (ops ++ [SetNetwork net])) =
     if decide (net = nullptr)
     then Throws (CanteraError "ReactorBase::network"
                    "Reactor is not part of a ReactorNet")
     else Returns net) /\
  (forall x, network (link_run (ops ++ [AddInlet x])) = network (link_run ops)) /\
  (forall x, network (link_run (ops ++ [AddOutlet x])) = network (link_run ops)) /\
  (forall w lr, network (link_run (ops ++ [AddWall w lr])) = network (link_run ops)).
Proof.
  assert (Hnet : forall l, m_net (link_run l) = last_network l).
  { intros l. pose proof (link_fold l links_new) as H. simpl in H.
    by destruct H as (_ & _ & _ & _ & H). }
  assert (Hsnoc : forall op, link_run (ops ++ [op]) = link_step (link_run ops) op).
  { intros op. unfold link_run. by rewrite fold_left_app. }
  split; [unfold network; by rewrite Hnet|].
  split; [intros net; by rewrite Hsnoc|].
  split; [intros x; by rewrite Hsnoc|].
  split; [intros x; by rewrite Hsnoc|].
  intros w lr; by rewrite Hsnoc.
Qed.

End LinkProperties.

(** The statements at [some_links]: the third wall is the first one
    again, on side 1, and the network is the one at address 9. *)
Lemma links_record_calls_witness :
  ReactorLinks.wall (ReactorLinks.link_run some_links) (Z.of_nat 2) = Returns 20 /\
  ReactorLinks.m_lr (ReactorLinks.link_run some_links) !! 2%nat =
    Some (ReactorLinks.lr_flag 1).
Proof.
  destruct (links_record_calls some_links) as (_ & _ & _ & _ & _ & _ & Hwall & _).
  exact (Hwall 2%nat 20 1 eq_refl).
Defined.

Lemma network_after_calls_witness :
  ReactorLinks.network (ReactorLinks.link_run some_links) = Returns 9 /\
  ReactorLinks.network (ReactorLinks.link_run []) =
    Throws (CanteraError "ReactorBase::network" "Reactor is not part of a ReactorNet").
Proof.
  split.
  - exact (proj1 (network_after_calls some_links)).
  - exact (proj1 (network_after_calls [])).
Defined.

(** ** Connector factory, continued *)

Lemma lookup_creator_None (model : string)
    (regs : list (string * ConnectorFactory.ConnectorClass)) :
  model ∉ regs.*1 -> ConnectorFactory.lookup_creator model regs = None.
Proof.
  induction regs as [|[key c] regs IH]; intros Hm; [done|].
  rewrite fmap_cons, not_elem_of_cons in Hm. destruct Hm as [Hne Hm]. simpl in Hne.
  simpl. destruct (String.eqb_spec key model) as [->|_]; [done|]. by apply IH.
Qed.

Lemma lookup_creator_Some (model : string) (cls : ConnectorFactory.ConnectorClass)
    (regs : list (string * ConnectorFactory.ConnectorClass)) :
  NoDup regs.*1 -> (model, cls) ∈ regs ->
  ConnectorFactory.lookup_creator model regs = Some cls.
Proof.
  induction regs as [|[key c] regs IH]; intros Hnd Hin.
  - by apply elem_of_nil in Hin.
  - rewrite fmap_cons in Hnd. apply NoDup_cons in Hnd as [Hkey Hnd]. simpl in Hkey.
    apply elem_of_cons in Hin as [[= -> ->]|Hin]; simpl.
    + by rewrite String.eqb_refl.
    + destruct (String.eqb_spec key model) as [->|_]; [|by apply IH].
      destruct Hkey. by apply (list_elem_of_fmap_2 fst _ (model, cls)).
Qed.

Section MoreFactoryProperties.

Import ConnectorFactory.

Context (isFlowDevice isWallBase : ConnectorClass -> bool).
Context (unknown_model : string -> exn).
Context (construct : ConnectorClass -> ptr -> ptr -> string -> outcome unit).

Local Abbreviation newConnector :=
  (ConnectorFactory.newConnector unknown_model construct).
Local Abbreviation newFlowDevice :=
  (ConnectorFactory.newFlowDevice isFlowDevice unknown_model construct).
Local Abbreviation newWall :=
  (ConnectorFactory.newWall isWallBase unknown_model construct).

(** X11: for a model registered in the factory, [newConnector] does what
    the constructor of the class registered under that name does: it
    throws what the constructor throws, and when the constructor returns
    it yields a non-null pointer to an object of that class holding the
    two nodes and the name given.  For every other model the factory's
    error comes out of [newConnector], [newFlowDevice] and [newWall]
    alike, not the incompatible-type error.  None of the three ever
    returns a null pointer. *)
Theorem newConnector_registered (model name : string) (r0 r1 : ptr) :
  (forall cls, (model, cls) ∈ creators ->
     match construct cls r0 r1 name with
     | Returns _ =>
         newConnector model r0 r1 name =
           Returns (Some {| dyn_class := cls; node0 := r0; node1 := r1;
                            m_name := name |})
     | Throws e => newConnector model r0 r1 name = Throws e
     | Undefined => newConnector model r0 r1 name = Undefined
     end) /\
  (forall cls e, (model, cls) ∈ creators ->
     construct cls nullptr nullptr name = Throws e ->
     newFlowDevice model name = Throws e /\ newWall model name = Throws e) /\
  (model ∉ creators.*1 ->
     newConnector model r0 r1 name = Throws (unknown_model model) /\
     newFlowDevice model name = Throws (unknown_model model) /\
     newWall model name = Throws (unknown_model model)) /\
  newConnector model r0 r1 name ≠ Returns None /\
  newFlowDevice model name ≠ Returns None /\
  newWall model name ≠ Returns None.
Proof.
  assert (Hnd : NoDup creators.*1).
  { apply (bool_decide_unpack _). by vm_compute. }
  split; [|split; [|split]].
  - intros cls Hin. unfold ConnectorFactory.newConnector, create.
    rewrite (lookup_creator_Some model cls creators Hnd Hin).
    by destruct (construct cls r0 r1 name) as [[]| |].
  - intros cls e Hin He.
    unfold ConnectorFactory.newFlowDevice, ConnectorFactory.newWall,
      ConnectorFactory.newConnector, create.
    rewrite (lookup_creator_Some model cls creators Hnd Hin).
    by rewrite He.
  - intros Hout.
    unfold ConnectorFactory.newFlowDevice, ConnectorFactory.newWall,
      ConnectorFactory.newConnector, create.
    by rewrite (lookup_creator_None model creators Hout).
  - unfold ConnectorFactory.newFlowDevice, ConnectorFactory.newWall,
      ConnectorFactory.newConnector, create.
    destruct (lookup_creator model creators) as [cls|]; simpl; [|done].
    split; [by destruct (construct cls r0 r1 name)|].
    destruct (construct cls nullptr nullptr name); simpl; [|done|done].
    split; [by destruct (isFlowDevice cls) | by destruct (isWallBase cls)].
Qed.

End MoreFactoryProperties.

(** The statement for model "Valve" between the nodes at 3 and 4, with
    constructors that return and with a [Valve] constructor that throws,
    and for a model that is not registered. *)
Lemma newConnector_registered_witness :
  ConnectorFactory.newConnector no_such_type construct_returns "Valve" 3 4 "v" =
    Returns (Some {| ConnectorFactory.dyn_class := ConnectorFactory.Valve;
                     ConnectorFactory.node0 := 3;
                     ConnectorFactory.node1 := 4;
                     ConnectorFactory.m_name := "v" |}) /\
  ConnectorFactory.newFlowDevice ConnectorFactory.flow_devices no_such_type
    construct_no_valve "Valve" "v" =
    Throws (CanteraError "Valve::Valve" "v") /\
  ConnectorFactory.newWall ConnectorFactory.walls no_such_type
    construct_returns "valve" "v" =
    Throws (no_such_type "valve").
Proof.
  assert (Hin : ("Valve", ConnectorFactory.Valve) ∈ ConnectorFactory.creators).
  { apply list_elem_of_lookup. by exists 2%nat. }
  split; [|split].
  - exact (proj1 (newConnector_registered ConnectorFactory.flow_devices
                    ConnectorFactory.walls no_such_type construct_returns
                    "Valve" "v" 3 4) ConnectorFactory.Valve Hin).
  - exact (proj1 (proj1 (proj2 (newConnector_registered
                    ConnectorFactory.flow_devices ConnectorFactory.walls
                    no_such_type construct_no_valve "Valve" "v" 3 4))
                    ConnectorFactory.Valve _ Hin eq_refl)).
  - apply (newConnector_registered ConnectorFactory.flow_devices ConnectorFactory.walls
             no_such_type construct_returns "valve" "v" 3 4).
    apply (bool_decide_unpack _). by vm_compute.
Defined.

(** ** Functor factories *)

Section RegistryProperties.

Import Func1Factory.

Context {creator : Type}.

Implicit Types (regs : list (string * creator)) (m : gmap string creator).

Lemma fold_reg_outside regs m (name : string) :
  name ∉ regs.*1 -> fold_left reg regs m !! name = m !! name.
Proof.
  revert m. induction regs as [|[key c] regs IH]; intros m Hn; [done|].
  rewrite fmap_cons, not_elem_of_cons in Hn. destruct Hn as [Hne Hn]. simpl in Hne.
  simpl. rewrite IH by done. unfold reg. simpl. by rewrite lookup_insert_ne.
Qed.

Lemma fold_reg_inside regs m (name : string) (c : creator) :
  NoDup regs.*1 -> (name, c) ∈ regs -> fold_left reg regs m !! name = Some c.
Proof.
  revert m. induction regs as [|[key c'] regs IH]; intros m Hnd Hin.
  - by apply elem_of_nil in Hin.
  - rewrite fmap_cons in Hnd. apply NoDup_cons in Hnd as [Hkey Hnd]. simpl in Hkey.
    apply elem_of_cons in Hin as [[= -> ->]|Hin]; simpl.
    + rewrite fold_reg_outside by done. unfold reg. simpl. apply lookup_insert_eq.
    + by apply IH.
Qed.

Lemma exists_spec regs (name : string) :
  exists_ (registry regs) name = true <-> name ∈ regs.*1.
Proof.
  unfold exists_, registry. rewrite bool_decide_eq_true.
  assert (H : forall m, is_Some (fold_left reg regs m !! name) <->
                        is_Some (m !! name) \/ name ∈ regs.*1).
  { induction regs as [|[key c] regs IH]; intros m; simpl.
    - split; [by left|]. intros [H|H]; [done|by apply elem_of_nil in H].
    - rewrite IH. unfold reg. simpl. rewrite elem_of_cons.
      destruct (decide (key = name)) as [->|Hne].
      + rewrite lookup_insert_eq. split; [intros _; right; by left|]. intros _. left. eauto.
      + rewrite lookup_insert_ne by done. split; [tauto|].
        intros [H|[H|H]]; [by left|congruence|by right]. }
  rewrite H, lookup_empty. split; [intros [[x Hx]|Hx]; done|by right].
Qed.

End RegistryProperties.

Section Func1Names.

Import Func1Factory.

Context {Func1 : Type}.

Local Abbreviation checkFunc1 := (Func1Factory.checkFunc1 (Func1:=Func1)).

Lemma registered_names :
  (Func1Factory_regs (Func1:=Func1)).*1 = standard_names /\
  (Math1FactoryA_regs (Func1:=Func1)).*1 = compound_names /\
  (Math1FactoryB_regs (Func1:=Func1)).*1 = modified_names.
Proof. done. Qed.

Lemma names_NoDup : NoDup all_names.
Proof. apply (bool_decide_unpack _). by vm_compute. Qed.

Lemma names_disjoint (name : string) :
  (name ∈ standard_names -> (name ∉ compound_names) /\ (name ∉ modified_names)) /\
  (name ∈ compound_names -> name ∉ modified_names).
Proof.
  pose proof names_NoDup as Hnd. unfold all_names in Hnd.
  apply NoDup_app in Hnd as (_ & H1 & Hnd). apply NoDup_app in Hnd as (_ & H2 & _).
  split.
  - intros Hs. pose proof (H1 name Hs) as Hn. rewrite elem_of_app in Hn. tauto.
  - intros Hc. by apply H2.
Qed.

(** X12: [checkFunc1(name)] answers "standard", "compound" or "modified"
    exactly for the names registered with the first, second and third
    factory, and "undefined" exactly for the names registered with none;
    no name is registered twice, within a factory or across factories,
    so the answer does not depend on the order of the three tests. *)
Theorem checkFunc1_classifies (name : string) :
  (checkFunc1 name = "standard" <-> name ∈ standard_names) /\
  (checkFunc1 name = "compound" <-> name ∈ compound_names) /\
  (checkFunc1 name = "modified" <-> name ∈ modified_names) /\
  (checkFunc1 name = "undefined" <-> name ∉ all_names) /\
  NoDup all_names.
Proof.
  destruct registered_names as (Hs & Hc & Hm).
  destruct (names_disjoint name) as [Hd1 Hd2].
  pose proof (exists_spec (Func1Factory_regs (Func1:=Func1)) name) as Es.
  pose proof (exists_spec (Math1FactoryA_regs (Func1:=Func1)) name) as Ec.
  pose proof (exists_spec (Math1FactoryB_regs (Func1:=Func1)) name) as Em.
  rewrite Hs in Es. rewrite Hc in Ec. rewrite Hm in Em.
  unfold Func1Factory.checkFunc1.
  destruct (exists_ (registry Func1Factory_regs) name) eqn:Bs;
    [|destruct (exists_ (registry Math1FactoryA_regs) name) eqn:Bc;
      [|destruct (exists_ (registry Math1FactoryB_regs) name) eqn:Bm]];
    unfold all_names at 1; rewrite ?elem_of_app;
    (split; [|split; [|split; [|split; [|apply names_NoDup]]]]);
    split; try discriminate; try tauto; intros H; exfalso;
    repeat match goal with
    | E : true = true <-> _ |- _ => destruct E
    | E : false = true <-> _ |- _ => destruct E
    end; try tauto; try (by auto).
Qed.

End Func1Names.

Section Func1Dispatch.

Import Func1Factory.

Context {Func1 : Type}.
Context (construct : new_expr (Func1:=Func1) -> outcome Func1).
Context (unknown_type : string -> exn).

Local Abbreviation checkFunc1 := (Func1Factory.checkFunc1 (Func1:=Func1)).
Local Abbreviation newFunc1 := (Func1Factory.newFunc1 construct unknown_type).
Local Abbreviation newFunc1_coeff := (Func1Factory.newFunc1_coeff construct unknown_type).
Local Abbreviation newFunc1_binary := (Func1Factory.newFunc1_binary construct unknown_type).
Local Abbreviation newFunc1_modified :=
  (Func1Factory.newFunc1_modified construct unknown_type).

(** X13: each registered creator is the one that is used: no
    registration is shadowed by a later one.  A name is accepted by the
    overload of [newFunc1] that [checkFunc1] names and by no other: the
    other overloads throw the factory's unknown-type error for it; and
    the single-coefficient overload is the vector overload on a
    one-element vector. *)
Theorem newFunc1_dispatch (name : string) (params : list double)
    (f1 f2 : Func1) (coeff : double) :
  (forall creator, (name, creator) ∈ Func1Factory_regs ->
     newFunc1 name params = construct (creator params)) /\
  (forall creator, (name, creator) ∈ Math1FactoryA_regs ->
     newFunc1_binary name f1 f2 = construct (creator f1 f2)) /\
  (forall creator, (name, creator) ∈ Math1FactoryB_regs ->
     newFunc1_modified name f1 coeff = construct (creator f1 coeff)) /\
  (checkFunc1 name ≠ "standard" -> newFunc1 name params = Throws (unknown_type name)) /\
  (checkFunc1 name ≠ "compound" ->
     newFunc1_binary name f1 f2 = Throws (unknown_type name)) /\
  (checkFunc1 name ≠ "modified" ->
     newFunc1_modified name f1 coeff = Throws (unknown_type name)) /\
  newFunc1_coeff name coeff = newFunc1 name [coeff].
Proof.
  destruct (registered_names (Func1:=Func1)) as (Hs & Hc & Hm).
  pose proof names_NoDup as Hnd. unfold all_names in Hnd.
  apply NoDup_app in Hnd as (Hns & _ & Hnd). apply NoDup_app in Hnd as (Hnc & _ & Hnm).
  destruct (checkFunc1_classifies (Func1:=Func1) name) as (Cs & Cc & Cm & _).
  unfold Func1Factory.newFunc1, Func1Factory.newFunc1_binary,
    Func1Factory.newFunc1_modified, registry.
  split; [|split; [|split; [|split; [|split; [|split; [|done]]]]]].
  - intros creator Hin. rewrite (fold_reg_inside _ _ name creator); [done| |done].
    by rewrite Hs.
  - intros creator Hin. rewrite (fold_reg_inside _ _ name creator); [done| |done].
    by rewrite Hc.
  - intros creator Hin. rewrite (fold_reg_inside _ _ name creator); [done| |done].
    by rewrite Hm.
  - intros Hne. rewrite fold_reg_outside; [done|]. rewrite Hs. by rewrite <- Cs.
  - intros Hne. rewrite fold_reg_outside; [done|]. rewrite Hc. by rewrite <- Cc.
  - intros Hne. rewrite fold_reg_outside; [done|]. rewrite Hm. by rewrite <- Cm.
Qed.

End Func1Dispatch.

(** The statements for the names "sum" and "sin". *)
Lemma checkFunc1_classifies_witness :
  Func1Factory.checkFunc1 (Func1:=unit) "sum" = "compound".
Proof.
  apply (checkFunc1_classifies (Func1:=unit) "sum").
  apply (bool_decide_unpack _). by vm_compute.
Defined.

Lemma newFunc1_dispatch_witness :
  Func1Factory.newFunc1 construct_unit no_such_type "sum" [1%float] =
    Throws (no_such_type "sum") /\
  Func1Factory.newFunc1_binary construct_unit no_such_type "sum" tt tt =
    construct_unit (Func1Factory.new_binary Func1Factory.Sum1 tt tt).
Proof.
  destruct (newFunc1_dispatch construct_unit no_such_type "sum" [1%float] tt tt 0%float)
    as (_ & Hbinary & _ & Hstandard & _).
  split.
  - apply Hstandard. by vm_compute.
  - apply (Hbinary (λ f1 f2, Func1Factory.new_binary Func1Factory.Sum1 f1 f2)).
    apply list_elem_of_lookup. by exists 0%nat.
Defined.
